(** * Open queueing network simulation: the engine of [simulation_gui.py]

    A shallow embedding of [SimulationModel] (the discrete-event engine) and of
    the analytical part of [SimulatorGUI.finish_and_compare].

    Modelling conventions.
    - Python floats (clock, event times, time integrals) are exact rationals
      [Q]; rounding is not modelled.  Python integers are [Z].
    - The four station ids [1..4], the only keys the dictionaries [queues],
      [server_busy], [stats] and [MU_RATES] ever hold, are the enumeration
      [Station]; a dictionary over them is a [Dict4].
    - The module-level constants are gathered in a [Config]; [source_config]
      holds the values written in the file.
    - The global generator of module [random] is an explicit state [rng]
      threaded through the engine, behind the interface [RandomSource].
    - [list.pop(0)] on an empty list raises [IndexError]: the departure
      handler is partial, and [step] has an outcome [Raised].
    - The trace strings ([log_msg]) carry no state and are left out. *)

From Stdlib Require Import ZArith QArith Qabs Qfield Lqa List Bool Lia Sorted
  Permutation.
Import ListNotations.
Local Open Scope Q_scope.

Set Implicit Arguments.

(** ** Stations and four-key dictionaries *)

Inductive Station : Type := St1 | St2 | St3 | St4.

Definition station_eqb (a b : Station) : bool :=
  match a, b with
  | St1, St1 | St2, St2 | St3, St3 | St4, St4 => true
  | _, _ => false
  end.

(** [range(1, 5)] *)
Definition range_1_5 : list Station := [St1; St2; St3; St4].

Record Dict4 (A : Type) : Type := mkDict4 { at1 : A; at2 : A; at3 : A; at4 : A }.

Definition get {A} (d : Dict4 A) (q : Station) : A :=
  match q with
  | St1 => at1 d | St2 => at2 d | St3 => at3 d | St4 => at4 d
  end.

Definition upd {A} (d : Dict4 A) (q : Station) (v : A) : Dict4 A :=
  match q with
  | St1 => mkDict4 v (at2 d) (at3 d) (at4 d)
  | St2 => mkDict4 (at1 d) v (at3 d) (at4 d)
  | St3 => mkDict4 (at1 d) (at2 d) v (at4 d)
  | St4 => mkDict4 (at1 d) (at2 d) (at3 d) v
  end.

(** ** 1. Configuration *)

Record Probs : Type := mkProbs {
  P_1_to_2 : Q;
  P_1_to_3 : Q;
  P_4_exit : Q;
  P_4_to_3 : Q
}.

Record Config : Type := mkConfig {
  LAMBDA_SOURCE_RATE : Q;
  MU_RATES : Dict4 Q;
  PROBS : Probs;
  MAX_COMPLETED : Z;
  WARM_UP_CUSTOMERS : Z
}.

(** The constants as the file declares them. *)
Definition source_config : Config :=
  {| LAMBDA_SOURCE_RATE := 4;
     MU_RATES := mkDict4 5 3 3 5;
     PROBS := mkProbs (4 # 10) (6 # 10) (9 # 10) (1 # 10);
     MAX_COMPLETED := 50000;
     WARM_UP_CUSTOMERS := 1000 |}.

(** ** 2. Simulation logic: data *)

Record Customer : Type := mkCustomer {
  id : Z;
  arrival_time : Q
}.

Inductive EventType : Type := ARRIVAL | DEPARTURE.

Record Event : Type := mkEvent {
  time : Q;
  type : EventType;
  customer : Customer;
  queue_id : Station
}.

(** The comparison [x < y] of two numbers, as a boolean. *)
Definition Qlt_bool (x y : Q) : bool := negb (Qle_bool y x).

(** [Event.__lt__]: [self.time < other.time] *)
Definition Event_lt (a b : Event) : bool := Qlt_bool (time a) (time b).

Definition is_arrival (e : Event) : bool :=
  match type e with ARRIVAL => true | DEPARTURE => false end.

Definition is_departure (e : Event) : bool :=
  match type e with ARRIVAL => false | DEPARTURE => true end.

Record Stats : Type := mkStats {
  L_accum : Q;
  Q_accum : Q;
  Busy_accum : Q;
  Arrivals : Z;
  Departures : Z
}.

Definition zero_stats : Stats := mkStats 0 0 0 0%Z 0%Z.

(** The time integrals of a record, and its event counters. *)
Definition integrals (st : Stats) : Q * Q * Q :=
  (L_accum st, Q_accum st, Busy_accum st).

Definition counts (st : Stats) : Z * Z := (Arrivals st, Departures st).

(** ** The list sort behind [schedule]

    [list.sort()] is a stable sort that compares with [__lt__] only.  On any
    input a stable sort has one possible output; insertion from the right is
    the simplest program that computes it. *)

Fixpoint insert (x : Event) (l : list Event) : list Event :=
  match l with
  | [] => [x]
  | y :: l' => if Event_lt y x then y :: insert x l' else x :: l
  end.

Definition sort (l : list Event) : list Event := fold_right insert [] l.

(** ** The random source *)

Class RandomSource (G : Type) : Type := {
  (** [random.expovariate(rate)] *)
  expovariate : Q -> G -> Q * G;
  (** [random.random()] *)
  random : G -> Q * G
}.

(** ** 2. Simulation logic: [SimulationModel] *)

Section Model.

Context {G : Type} {RS : RandomSource G}.
Variable cfg : Config.

Record State : Type := mkState {
  clock : Q;
  events : list Event;
  queues : Dict4 (list Customer);
  server_busy : Dict4 bool;
  stats : Dict4 Stats;
  completed_count : Z;
  total_response_time : Q;
  last_update : Q;
  cust_counter : Z;
  warmup_count : Z;
  is_warming_up : bool;
  steady_start_time : Q;
  rng : G
}.

(** Assignments to one attribute of [self]. *)
Definition set_clock (v : Q) (s : State) : State :=
  mkState v (events s) (queues s) (server_busy s) (stats s) (completed_count s)
    (total_response_time s) (last_update s) (cust_counter s) (warmup_count s)
    (is_warming_up s) (steady_start_time s) (rng s).

Definition set_events (v : list Event) (s : State) : State :=
  mkState (clock s) v (queues s) (server_busy s) (stats s) (completed_count s)
    (total_response_time s) (last_update s) (cust_counter s) (warmup_count s)
    (is_warming_up s) (steady_start_time s) (rng s).

Definition set_queues (v : Dict4 (list Customer)) (s : State) : State :=
  mkState (clock s) (events s) v (server_busy s) (stats s) (completed_count s)
    (total_response_time s) (last_update s) (cust_counter s) (warmup_count s)
    (is_warming_up s) (steady_start_time s) (rng s).

Definition set_server_busy (v : Dict4 bool) (s : State) : State :=
  mkState (clock s) (events s) (queues s) v (stats s) (completed_count s)
    (total_response_time s) (last_update s) (cust_counter s) (warmup_count s)
    (is_warming_up s) (steady_start_time s) (rng s).

Definition set_stats (v : Dict4 Stats) (s : State) : State :=
  mkState (clock s) (events s) (queues s) (server_busy s) v (completed_count s)
    (total_response_time s) (last_update s) (cust_counter s) (warmup_count s)
    (is_warming_up s) (steady_start_time s) (rng s).

Definition set_completed_count (v : Z) (s : State) : State :=
  mkState (clock s) (events s) (queues s) (server_busy s) (stats s) v
    (total_response_time s) (last_update s) (cust_counter s) (warmup_count s)
    (is_warming_up s) (steady_start_time s) (rng s).

Definition set_total_response_time (v : Q) (s : State) : State :=
  mkState (clock s) (events s) (queues s) (server_busy s) (stats s)
    (completed_count s) v (last_update s) (cust_counter s) (warmup_count s)
    (is_warming_up s) (steady_start_time s) (rng s).

Definition set_last_update (v : Q) (s : State) : State :=
  mkState (clock s) (events s) (queues s) (server_busy s) (stats s)
    (completed_count s) (total_response_time s) v (cust_counter s)
    (warmup_count s) (is_warming_up s) (steady_start_time s) (rng s).

Definition set_cust_counter (v : Z) (s : State) : State :=
  mkState (clock s) (events s) (queues s) (server_busy s) (stats s)
    (completed_count s) (total_response_time s) (last_update s) v
    (warmup_count s) (is_warming_up s) (steady_start_time s) (rng s).

Definition set_warmup_count (v : Z) (s : State) : State :=
  mkState (clock s) (events s) (queues s) (server_busy s) (stats s)
    (completed_count s) (total_response_time s) (last_update s)
    (cust_counter s) v (is_warming_up s) (steady_start_time s) (rng s).

Definition set_is_warming_up (v : bool) (s : State) : State :=
  mkState (clock s) (events s) (queues s) (server_busy s) (stats s)
    (completed_count s) (total_response_time s) (last_update s)
    (cust_counter s) (warmup_count s) v (steady_start_time s) (rng s).

Definition set_steady_start_time (v : Q) (s : State) : State :=
  mkState (clock s) (events s) (queues s) (server_busy s) (stats s)
    (completed_count s) (total_response_time s) (last_update s)
    (cust_counter s) (warmup_count s) (is_warming_up s) v (rng s).

Definition set_rng (v : G) (s : State) : State :=
  mkState (clock s) (events s) (queues s) (server_busy s) (stats s)
    (completed_count s) (total_response_time s) (last_update s)
    (cust_counter s) (warmup_count s) (is_warming_up s) (steady_start_time s) v.

(** [schedule]: append, then sort the whole list. *)
Definition schedule (event : Event) (s : State) : State :=
  set_events (sort (events s ++ [event])) s.

(** [reset], from the state [g] of the generator. *)
Definition reset (g : G) : State :=
  let (t, g') := expovariate (LAMBDA_SOURCE_RATE cfg) g in
  let first_arrival := mkEvent t ARRIVAL (mkCustomer 1 0) St1 in
  schedule first_arrival
    (mkState 0 [] (mkDict4 [] [] [] []) (mkDict4 false false false false)
       (mkDict4 zero_stats zero_stats zero_stats zero_stats)
       0%Z 0 0 1%Z 0%Z true 0 g').

(** One round of the [for i in range(1, 5)] loop of [update_accumulators]. *)
Definition accumulate (delta : Q) (s : State) (i : Station) : State :=
  let n := Z.of_nat (length (get (queues s) i)) in
  let st := get (stats s) i in
  let st1 := mkStats (L_accum st + inject_Z n * delta) (Q_accum st)
               (Busy_accum st) (Arrivals st) (Departures st) in
  let q_len := if get (server_busy s) i then Z.max 0 (n - 1) else 0%Z in
  let st2 := mkStats (L_accum st1) (Q_accum st1 + inject_Z q_len * delta)
               (Busy_accum st1) (Arrivals st1) (Departures st1) in
  let st3 := if get (server_busy s) i
             then mkStats (L_accum st2) (Q_accum st2) (Busy_accum st2 + delta)
                    (Arrivals st2) (Departures st2)
             else st2 in
  set_stats (upd (stats s) i st3) s.

Definition update_accumulators (s : State) : State :=
  if is_warming_up s then set_last_update (clock s) s
  else
    let delta := clock s - last_update s in
    let s' := fold_left (accumulate delta) range_1_5 s in
    set_last_update (clock s') s'.

Definition reset_stats_post_warmup (s : State) : State :=
  let s := set_stats (mkDict4 zero_stats zero_stats zero_stats zero_stats) s in
  let s := set_completed_count 0%Z s in
  let s := set_total_response_time 0 s in
  let s := set_last_update (clock s) s in
  let s := set_is_warming_up false s in
  set_steady_start_time (clock s) s.

Definition handle_arrival (event : Event) (s : State) : State :=
  let q := queue_id event in
  let s := set_queues (upd (queues s) q (get (queues s) q ++ [customer event])) s in
  let st := get (stats s) q in
  let s := set_stats (upd (stats s) q
             (mkStats (L_accum st) (Q_accum st) (Busy_accum st)
                (Arrivals st + 1)%Z (Departures st))) s in
  if negb (get (server_busy s) q) then
    let s := set_server_busy (upd (server_busy s) q true) s in
    let (svc_time, g) := expovariate (get (MU_RATES cfg) q) (rng s) in
    let s := set_rng g s in
    schedule (mkEvent (clock s + svc_time) DEPARTURE (customer event) q) s
  else s.

(** The routing chain of [handle_departure]; [None] is ['EXIT']. *)
Definition route (q : Station) (r : Q) : option Station :=
  match q with
  | St1 => if Qlt_bool r (P_1_to_2 (PROBS cfg)) then Some St2 else Some St3
  | St2 => Some St4
  | St3 => Some St4
  | St4 => if Qlt_bool r (P_4_exit (PROBS cfg)) then None else Some St3
  end.

(** The exit branch of [handle_departure] ([next_q == 'EXIT']), for the
    departing customer [c]. *)
Definition handle_exit (c : Customer) (s : State) : State :=
  if is_warming_up s then
    let s := set_warmup_count (warmup_count s + 1)%Z s in
    if (WARM_UP_CUSTOMERS cfg <=? warmup_count s)%Z
    then reset_stats_post_warmup s
    else s
  else
    let s := set_completed_count (completed_count s + 1)%Z s in
    set_total_response_time
      (total_response_time s + (clock s - arrival_time c)) s.

(** The end of [handle_departure]: serve the next customer of [q], or go
    idle. *)
Definition start_next (q : Station) (s : State) : State :=
  match get (queues s) q with
  | nxt_c :: _ =>
      let s := set_server_busy (upd (server_busy s) q true) s in
      let (svc_time, g) := expovariate (get (MU_RATES cfg) q) (rng s) in
      let s := set_rng g s in
      schedule (mkEvent (clock s + svc_time) DEPARTURE nxt_c q) s
  | [] => set_server_busy (upd (server_busy s) q false) s
  end.

(** [handle_departure]; [None] when [self.queues[q].pop(0)] raises. *)
Definition handle_departure (event : Event) (s : State) : option State :=
  let q := queue_id event in
  match get (queues s) q with
  | [] => None
  | c :: rest =>
      let s := set_queues (upd (queues s) q rest) s in
      let st := get (stats s) q in
      let s := set_stats (upd (stats s) q
                 (mkStats (L_accum st) (Q_accum st) (Busy_accum st)
                    (Arrivals st) (Departures st + 1)%Z)) s in
      let (r, g) := random (rng s) in
      let s := set_rng g s in
      let s := match route q r with
               | None => handle_exit c s
               | Some next_q =>
                   handle_arrival (mkEvent (clock s) ARRIVAL c next_q) s
               end in
      Some (start_next q s)
  end.

(** The body of the [if] of [step] that follows an external arrival: count
    the customer and schedule the next external [ARRIVAL]. *)
Definition next_external (s : State) : State :=
  let s := set_cust_counter (cust_counter s + 1)%Z s in
  let (d, g) := expovariate (LAMBDA_SOURCE_RATE cfg) (rng s) in
  let s := set_rng g s in
  let nxt_time := clock s + d in
  schedule (mkEvent nxt_time ARRIVAL
              (mkCustomer (cust_counter s) (clock s)) St1) s.

(** The outcome of [step]: [(None, "Simulation Finished")], the processed
    event with the state it leaves, or an exception. *)
Inductive StepResult : Type :=
| Finished
| Processed (event : Event) (s' : State)
| Raised.

Definition step (s : State) : StepResult :=
  match events s with
  | [] => Finished
  | event :: rest =>
      if (MAX_COMPLETED cfg <=? completed_count s)%Z then Finished
      else
        let s := set_events rest s in
        let s := update_accumulators s in
        let s := set_clock (time event) s in
        match type event with
        | ARRIVAL =>
            let s := handle_arrival event s in
            if station_eqb (queue_id event) St1
               && (id (customer event) =? cust_counter s)%Z
            then Processed event (next_external s)
            else Processed event s
        | DEPARTURE =>
            match handle_departure event s with
            | Some s' => Processed event s'
            | None => Raised
            end
        end
  end.

(** The loop of [run_instant] and [finish_and_compare]: step until the
    engine reports the end, at most [fuel] times; the processed events and
    the state reached. *)
Fixpoint run (fuel : nat) (s : State) : list Event * State :=
  match fuel with
  | O => ([], s)
  | S fuel' =>
      match step s with
      | Processed event s' =>
          let (tr, s'') := run fuel' s' in (event :: tr, s'')
      | _ => ([], s)
      end
  end.

(** States the engine can be in between two calls of [step]. *)
Inductive reachable : State -> Prop :=
| reach_reset : forall g, reachable (reset g)
| reach_step : forall s event s',
    reachable s -> step s = Processed event s' -> reachable s'.

(** Any number of successive calls of [step] that each process an event. *)
Inductive steps : State -> State -> Prop :=
| steps_refl : forall s, steps s s
| steps_next : forall s event s' s'',
    step s = Processed event s' -> steps s' s'' -> steps s s''.

End Model.

Arguments State G : clear implicits.

(** ** The deterministic trace scenario

    A stubbed random source: every interarrival draw (rate [lam]) is [ia],
    every service draw is [svc], every routing draw is [r]. *)

Definition stub_source (lam ia svc r : Q) : RandomSource unit :=
  {| expovariate := fun rate g => (if Qeq_bool rate lam then ia else svc, g);
     random := fun g => (r, g) |}.

Definition trace_source : RandomSource unit := stub_source 4 1 (1 # 2) (2 # 10).

(** The constants of the file with warm-up threshold 0 and completion
    target 5. *)
Definition trace_config : Config :=
  {| LAMBDA_SOURCE_RATE := 4;
     MU_RATES := mkDict4 5 3 3 5;
     PROBS := mkProbs (4 # 10) (6 # 10) (9 # 10) (1 # 10);
     MAX_COMPLETED := 5;
     WARM_UP_CUSTOMERS := 0 |}.

Definition trace_init : State unit := reset (RS := trace_source) trace_config tt.

Definition trace_run (fuel : nat) : list Event * State unit :=
  run (RS := trace_source) trace_config fuel trace_init.

(** The scenario after [n] calls of [step]. *)
Definition trace_state (n : nat) : State unit := snd (trace_run n).

(** The same scenario with warm-up threshold 2, after [n] calls of [step]. *)
Definition warmup2_config : Config :=
  {| LAMBDA_SOURCE_RATE := 4;
     MU_RATES := mkDict4 5 3 3 5;
     PROBS := mkProbs (4 # 10) (6 # 10) (9 # 10) (1 # 10);
     MAX_COMPLETED := 5;
     WARM_UP_CUSTOMERS := 2 |}.

Definition warmup2_state (n : nat) : State unit :=
  snd (run (RS := trace_source) warmup2_config n
         (reset (RS := trace_source) warmup2_config tt)).

(** The same stub driving the engine with the constants of the file. *)
Definition source_run (fuel : nat) : list Event * State unit :=
  run (RS := trace_source) source_config fuel
    (reset (RS := trace_source) source_config tt).

(** What is read off an event of a trace: time, type, customer id, station. *)
Definition event_view (e : Event) : Q * EventType * Z * Station :=
  (Qred (time e), type e, id (customer e), queue_id e).

(** ** 3. The analytical model of [finish_and_compare] *)

Module Analytical.

Record Metrics : Type := mkMetrics { L : Q; Lq : Q; W : Q; Wq : Q; Rho : Q }.

(** Python's [a / b]; [None] is [ZeroDivisionError]. *)
Definition div (a b : Q) : option Q :=
  if Qeq_bool b 0 then None else Some (a / b).

Definition bind {A B} (o : option A) (f : A -> option B) : option B :=
  match o with Some a => f a | None => None end.

Notation "x <- e ;; k" := (bind e (fun x => k))
  (at level 61, e at next level, right associativity).

(** The body of the loop over the stations, for effective arrival rate [l]
    and service rate [m]. *)
Definition station_metrics (l m : Q) : option Metrics :=
  rho <- div l m ;;
  L_val <- div rho (1 - rho) ;;
  let Lq_val := L_val - rho in
  W_val <- div 1 (m - l) ;;
  inv_m <- div 1 m ;;
  let Wq_val := W_val - inv_m in
  Some (mkMetrics L_val Lq_val W_val Wq_val rho).

(** The flow equations, with the literals of the code. *)
Definition eff_lam (lam : Q) : Dict4 Q :=
  let L1 := lam in
  let L2 := (4 # 10) * L1 in
  let L4 := L1 / (9 # 10) in
  let L3 := (6 # 10) * L1 + (1 # 10) * L4 in
  mkDict4 L1 L2 L3 L4.

(** Part 2 of [finish_and_compare]: the metrics of the four stations,
    [total_L_ana] and [sys_R_ana]. *)
Definition analytical (cfg : Config) : option (Dict4 Metrics * Q * Q) :=
  let lam := LAMBDA_SOURCE_RATE cfg in
  let at_station i := station_metrics (get (eff_lam lam) i) (get (MU_RATES cfg) i) in
  m1 <- at_station St1 ;;
  m2 <- at_station St2 ;;
  m3 <- at_station St3 ;;
  m4 <- at_station St4 ;;
  let total_L_ana := 0 + L m1 + L m2 + L m3 + L m4 in
  sys_R_ana <- div total_L_ana lam ;;
  Some (mkDict4 m1 m2 m3 m4, total_L_ana, sys_R_ana).

End Analytical.

(** The constants of the file with the source rate raised to 6: the load
    of station 1 is then 6/5. *)
Definition overloaded_config : Config :=
  {| LAMBDA_SOURCE_RATE := 6;
     MU_RATES := mkDict4 5 3 3 5;
     PROBS := mkProbs (4 # 10) (6 # 10) (9 # 10) (1 # 10);
     MAX_COMPLETED := 50000;
     WARM_UP_CUSTOMERS := 1000 |}.

(** ** 3. The figures of the reports and tables *)

Module Report.

Import Analytical.

(** [valid_duration], with its guard against a short or empty steady state
    (part 3 of [finish_and_compare], and [show_results_window]).  The bound is
    the value of the floating-point literal [0.001], which is
    1152921504606847 / 2^60. *)
Definition valid_duration {G} (s : State G) : Q :=
  let d := clock s - steady_start_time s in
  if Qle_bool d (1152921504606847 # 1152921504606846976) then 1 else d.

(** The body of the loop over the stations that fills [sim_metrics]. *)
Definition sim_station {G} (s : State G) (i : Station) : option Metrics :=
  let vd := valid_duration s in
  let st := get (stats s) i in
  L_ <- div (L_accum st) vd ;;
  Lq_ <- div (Q_accum st) vd ;;
  Rho_ <- div (Busy_accum st) vd ;;
  Thru <- div (inject_Z (Departures st)) vd ;;
  W_ <- (if Qlt_bool 0 Thru then div L_ Thru else Some 0) ;;
  Wq_ <- (if Qlt_bool 0 Thru then div Lq_ Thru else Some 0) ;;
  Some (mkMetrics L_ Lq_ W_ Wq_ Rho_).

(** [sim_R = total_response_time / max(1, completed_count)] *)
Definition sim_R {G} (s : State G) : option Q :=
  div (total_response_time s) (inject_Z (Z.max 1 (completed_count s))).

(** Part 3 of [finish_and_compare]: [sim_metrics], [sim_N] and [sim_R]. *)
Definition simulation {G} (s : State G) : option (Dict4 Metrics * Q * Q) :=
  m1 <- sim_station s St1 ;;
  m2 <- sim_station s St2 ;;
  m3 <- sim_station s St3 ;;
  m4 <- sim_station s St4 ;;
  let sim_N := 0 + L m1 + L m2 + L m3 + L m4 in
  r <- sim_R s ;;
  Some (mkDict4 m1 m2 m3 m4, sim_N, r).

Inductive Status : Type := PASS | HIGH_DEV.

(** The error and the status [add_row] writes in a line that is not a
    header. *)
Definition add_row (ana sim : Q) : option (Q * Status) :=
  err <- (if Qlt_bool 0 ana
          then (d <- div (Qabs (sim - ana)) ana ;; Some (d * 100))
          else Some 0) ;;
  Some (err, if Qlt_bool err 10 then PASS else HIGH_DEV).

(** [total_n_sys] of [update_tables]: the customers in the network. *)
Definition total_n_sys {G} (s : State G) : Z :=
  fold_left (fun total i => (total + Z.of_nat (length (get (queues s) i)))%Z)
    range_1_5 0%Z.

End Report.

(** ** Predicates of the claims *)

(** The pending [DEPARTURE] events of station [q], in list order. *)
Definition deps (q : Station) (l : list Event) : list Event :=
  filter (fun e => is_departure e && station_eqb (queue_id e) q) l.

(** The pending [ARRIVAL] events, in list order. *)
Definition arrs (l : list Event) : list Event := filter is_arrival l.

(** A [DEPARTURE] of customer [c] from station [q] is pending in [l]. *)
Definition departure_pending (q : Station) (c : Customer) (l : list Event) : Prop :=
  exists e, In e l /\ type e = DEPARTURE /\ queue_id e = q /\ customer e = c.

(** Non-decreasing times along a list of events. *)
Definition time_sorted (l : list Event) : Prop :=
  StronglySorted (fun a b => time a <= time b) l.

Section Invariants.

Context {G : Type} {RS : RandomSource G}.

(** Busy flag, queue and pending departures of one station agree. *)
Definition station_ok (s : State G) (q : Station) : Prop :=
  if get (server_busy s) q
  then exists c rest e, get (queues s) q = c :: rest /\
                        deps q (events s) = [e] /\ customer e = c
  else get (queues s) q = [] /\ deps q (events s) = [].

(** One external arrival is pending, for the customer numbered
    [cust_counter]. *)
Definition source_ok (s : State G) : Prop :=
  exists e, arrs (events s) = [e] /\ queue_id e = St1 /\
            id (customer e) = cust_counter s.

(** The pending events are in time order and none lies in the past. *)
Definition fel_ok (s : State G) : Prop :=
  time_sorted (events s) /\ Forall (fun e => clock s <= time e) (events s).

(** The three time integrals of every station are zero. *)
Definition integrals_zero (s : State G) : Prop :=
  forall q, integrals (get (stats s) q) = (0, 0, 0).

(** Every accumulator and counter of every station is zero. *)
Definition stats_zero (s : State G) : Prop :=
  forall q, get (stats s) q = zero_stats.

(** Customers counted in minus customers counted out, against the queue. *)
Definition balance (s : State G) (q : Station) : Z :=
  (Z.of_nat (length (get (queues s) q))
   - (Arrivals (get (stats s) q) - Departures (get (stats s) q)))%Z.

(** The customers that have left the network. *)
Definition exits (s : State G) : Z := (warmup_count s + completed_count s)%Z.

(** Every customer that entered is in a queue or has left, and nothing is
    counted as completed during the warm-up. *)
Definition census_ok (s : State G) : Prop :=
  Report.total_n_sys s = (cust_counter s - 1 - exits s)%Z /\
  (is_warming_up s = true -> completed_count s = 0%Z).

(** The warm-up discards [max(1, WARM_UP_CUSTOMERS)] customers. *)
Definition discard_ok (cfg : Config) (s : State G) : Prop :=
  if is_warming_up s
  then (0 <= warmup_count s < Z.max 1 (WARM_UP_CUSTOMERS cfg))%Z
  else warmup_count s = Z.max 1 (WARM_UP_CUSTOMERS cfg).

(** The customers waiting and the customer in service are among those in
    the system, in the time integrals too. *)
Definition within_ok (s : State G) : Prop :=
  forall q, Q_accum (get (stats s) q) <= L_accum (get (stats s) q) /\
            Busy_accum (get (stats s) q) <= L_accum (get (stats s) q).

(** The integrals never run ahead of the clock and are not negative. *)
Definition integrals_ok (s : State G) : Prop :=
  last_update s <= clock s /\
  forall q, 0 <= L_accum (get (stats s) q) /\
            0 <= Q_accum (get (stats s) q) /\
            0 <= Busy_accum (get (stats s) q).

Definition warmup_ok (cfg : Config) (s : State G) : Prop :=
  (is_warming_up s = true -> integrals_zero s) /\
  (is_warming_up s = false -> (WARM_UP_CUSTOMERS cfg <= warmup_count s)%Z).

End Invariants.

(** ** Facts about dictionaries and the sort *)

Unset Implicit Arguments.

(** Arithmetic on [Q] is not to be unfolded by [simpl]. *)
#[local] Arguments Qplus : simpl never.
#[local] Arguments Qminus : simpl never.
#[local] Arguments Qmult : simpl never.
#[local] Arguments inject_Z : simpl never.

Lemma get_upd_same {A} (d : Dict4 A) q v : get (upd d q v) q = v.
Proof. destruct q; reflexivity. Qed.

Lemma station_eqb_eq a b : station_eqb a b = true <-> a = b.
Proof. destruct a, b; simpl; split; congruence. Qed.

Lemma station_eqb_refl a : station_eqb a a = true.
Proof. destruct a; reflexivity. Qed.

Lemma station_eqb_eq_false a b : a <> b -> station_eqb a b = false.
Proof. destruct a, b; simpl; congruence. Qed.

Lemma get_upd_other {A} (d : Dict4 A) q q' v :
  q' <> q -> get (upd d q v) q' = get d q'.
Proof. destruct q, q'; simpl; congruence. Qed.

Lemma get_upd {A} (d : Dict4 A) q q' v :
  get (upd d q v) q' = if station_eqb q' q then v else get d q'.
Proof. destruct q, q'; reflexivity. Qed.

Lemma Qlt_bool_iff x y : Qlt_bool x y = true <-> x < y.
Proof.
  unfold Qlt_bool. rewrite negb_true_iff.
  destruct (Qle_bool y x) eqn:E.
  - apply Qle_bool_iff in E. split; [discriminate|].
    intros H. exfalso. exact (Qle_not_lt _ _ E H).
  - split; [intros _|reflexivity].
    apply Qnot_le_lt. intros H. apply Qle_bool_iff in H. congruence.
Qed.

Lemma Qlt_bool_false x y : Qlt_bool x y = false <-> y <= x.
Proof.
  unfold Qlt_bool. rewrite negb_false_iff. apply Qle_bool_iff.
Qed.

Lemma Forall_insert (P : Event -> Prop) x l :
  Forall P (insert x l) <-> P x /\ Forall P l.
Proof.
  induction l as [|y l IH]; simpl.
  - split; [intros H; inversion H; auto | intros [H1 H2]; auto].
  - destruct (Event_lt y x).
    + split.
      * intros H. inversion H; subst. apply IH in H3. destruct H3. auto.
      * intros [Hx Hl]. inversion Hl; subst. constructor; [assumption|].
        apply IH. auto.
    + split; [intros H; inversion H; auto | intros [H1 H2]; auto].
Qed.

Lemma Forall_sort (P : Event -> Prop) l : Forall P (sort l) <-> Forall P l.
Proof.
  induction l as [|y l IH]; simpl; [tauto|].
  rewrite Forall_insert, IH. split.
  - intros [H1 H2]; auto.
  - intros H; inversion H; auto.
Qed.

Lemma in_insert x y l : In x (insert y l) <-> y = x \/ In x l.
Proof.
  induction l as [|z l IH]; simpl; [tauto|].
  destruct (Event_lt z y); simpl; rewrite ?IH; tauto.
Qed.

Lemma in_sort x l : In x (sort l) <-> In x l.
Proof.
  induction l as [|z l IH]; simpl; [tauto|].
  rewrite in_insert, IH. tauto.
Qed.

Lemma insert_sorted x l : time_sorted l -> time_sorted (insert x l).
Proof.
  unfold time_sorted. induction l as [|y l IH]; simpl; intros Hs.
  - constructor; constructor.
  - inversion Hs as [|? ? Hl Hy]; subst.
    destruct (Event_lt y x) eqn:Hlt.
    + constructor; [auto|]. apply Forall_insert. split; [|assumption].
      apply Qlt_bool_iff in Hlt. apply Qlt_le_weak. assumption.
    + apply Qlt_bool_false in Hlt. constructor; [assumption|].
      constructor; [assumption|].
      eapply Forall_impl; [|exact Hy]. simpl. intros z Hz.
      eapply Qle_trans; eassumption.
Qed.

Lemma sort_sorted l : time_sorted (sort l).
Proof.
  induction l as [|y l IH]; simpl; [constructor|].
  apply insert_sorted. assumption.
Qed.

Lemma insert_front x l :
  Forall (fun z => time x <= time z) l -> insert x l = x :: l.
Proof.
  destruct l as [|y l]; simpl; intros H; [reflexivity|].
  inversion H; subst.
  replace (Event_lt y x) with false; [reflexivity|].
  symmetry. apply Qlt_bool_false. assumption.
Qed.

(** A stable sort commutes with a filter. *)
Lemma filter_insert (P : Event -> bool) x l :
  time_sorted l ->
  filter P (insert x l) = if P x then insert x (filter P l) else filter P l.
Proof.
  unfold time_sorted. induction l as [|y l IH]; simpl; intros Hs.
  - destruct (P x); reflexivity.
  - inversion Hs as [|? ? Hl Hy]; subst.
    destruct (Event_lt y x) eqn:Hlt; simpl.
    + rewrite (IH Hl). destruct (P y) eqn:Py, (P x) eqn:Px; simpl;
        rewrite ?Hlt; reflexivity.
    + destruct (P x) eqn:Px, (P y) eqn:Py; simpl; rewrite ?Hlt; try reflexivity.
      symmetry. apply insert_front.
      apply Qlt_bool_false in Hlt.
      apply Forall_forall. intros z Hz. apply filter_In in Hz. destruct Hz as [Hz _].
      rewrite Forall_forall in Hy. eapply Qle_trans; [exact Hlt|]. auto.
Qed.

Lemma filter_sort (P : Event -> bool) l : filter P (sort l) = sort (filter P l).
Proof.
  induction l as [|y l IH]; simpl; [reflexivity|].
  rewrite filter_insert by apply sort_sorted.
  rewrite IH. destruct (P y); reflexivity.
Qed.

Lemma sort_short l : (length l <= 1)%nat -> sort l = l.
Proof.
  destruct l as [|a [|b l]]; simpl; intros H; try reflexivity. lia.
Qed.

(** The two ways an event added by [schedule] shows in a filtered view that
    held at most one event. *)
Lemma filter_schedule_skip (P : Event -> bool) e l :
  P e = false -> (length (filter P l) <= 1)%nat ->
  filter P (sort (l ++ [e])) = filter P l.
Proof.
  intros He Hl. rewrite filter_sort, filter_app. simpl. rewrite He, app_nil_r.
  apply sort_short. assumption.
Qed.

Lemma filter_schedule_new (P : Event -> bool) e l :
  P e = true -> filter P l = [] ->
  filter P (sort (l ++ [e])) = [e].
Proof.
  intros He Hl. rewrite filter_sort, filter_app. simpl. rewrite He, Hl.
  reflexivity.
Qed.

Lemma deps_cons_own ev rest :
  type ev = DEPARTURE ->
  deps (queue_id ev) (ev :: rest) = ev :: deps (queue_id ev) rest.
Proof.
  intros Ht. unfold deps. simpl. unfold is_departure at 1.
  rewrite Ht, station_eqb_refl. reflexivity.
Qed.

Lemma deps_cons_skip q ev rest :
  is_departure ev && station_eqb (queue_id ev) q = false ->
  deps q (ev :: rest) = deps q rest.
Proof.
  intros Hf. unfold deps. simpl. rewrite Hf. reflexivity.
Qed.

Lemma station_eq_dec (a b : Station) : {a = b} + {a <> b}.
Proof. decide equality. Qed.

(** ** What each method leaves alone *)

Section Frames.

Context {G : Type} {RS : RandomSource G}.
Variable cfg : Config.

Ltac crush_frame :=
  intros;
  repeat match goal with
         | |- context [if ?b then _ else _] => destruct b eqn:?
         | |- context [let (_, _) := ?e in _] => destruct e eqn:?
         | |- context [match ?l with [] => _ | _ :: _ => _ end] => destruct l eqn:?
         end;
  simpl; congruence.

Lemma update_accumulators_events (s : State G) :
  events (update_accumulators s) = events s.
Proof. unfold update_accumulators. crush_frame. Qed.

Lemma update_accumulators_queues (s : State G) :
  queues (update_accumulators s) = queues s.
Proof. unfold update_accumulators. crush_frame. Qed.

Lemma update_accumulators_server_busy (s : State G) :
  server_busy (update_accumulators s) = server_busy s.
Proof. unfold update_accumulators. crush_frame. Qed.

Lemma update_accumulators_clock (s : State G) :
  clock (update_accumulators s) = clock s.
Proof. unfold update_accumulators. crush_frame. Qed.

Lemma update_accumulators_cust_counter (s : State G) :
  cust_counter (update_accumulators s) = cust_counter s.
Proof. unfold update_accumulators. crush_frame. Qed.

Lemma update_accumulators_is_warming_up (s : State G) :
  is_warming_up (update_accumulators s) = is_warming_up s.
Proof. unfold update_accumulators. crush_frame. Qed.

Lemma update_accumulators_warmup_count (s : State G) :
  warmup_count (update_accumulators s) = warmup_count s.
Proof. unfold update_accumulators. crush_frame. Qed.

Lemma update_accumulators_completed_count (s : State G) :
  completed_count (update_accumulators s) = completed_count s.
Proof. unfold update_accumulators. crush_frame. Qed.

Lemma handle_arrival_clock ev (s : State G) :
  clock (handle_arrival cfg ev s) = clock s.
Proof. unfold handle_arrival. simpl. crush_frame. Qed.

Lemma handle_arrival_cust_counter ev (s : State G) :
  cust_counter (handle_arrival cfg ev s) = cust_counter s.
Proof. unfold handle_arrival. simpl. crush_frame. Qed.

Lemma handle_arrival_is_warming_up ev (s : State G) :
  is_warming_up (handle_arrival cfg ev s) = is_warming_up s.
Proof. unfold handle_arrival. simpl. crush_frame. Qed.

Lemma handle_arrival_warmup_count ev (s : State G) :
  warmup_count (handle_arrival cfg ev s) = warmup_count s.
Proof. unfold handle_arrival. simpl. crush_frame. Qed.

Lemma handle_arrival_completed_count ev (s : State G) :
  completed_count (handle_arrival cfg ev s) = completed_count s.
Proof. unfold handle_arrival. simpl. crush_frame. Qed.

Lemma handle_arrival_queues ev (s : State G) :
  queues (handle_arrival cfg ev s)
  = upd (queues s) (queue_id ev) (get (queues s) (queue_id ev) ++ [customer ev]).
Proof. unfold handle_arrival. simpl. crush_frame. Qed.

Lemma handle_arrival_stats ev (s : State G) :
  stats (handle_arrival cfg ev s)
  = let st := get (stats s) (queue_id ev) in
    upd (stats s) (queue_id ev)
      (mkStats (L_accum st) (Q_accum st) (Busy_accum st)
         (Arrivals st + 1)%Z (Departures st)).
Proof. unfold handle_arrival. simpl. crush_frame. Qed.

Lemma handle_arrival_server_busy ev (s : State G) q :
  get (server_busy (handle_arrival cfg ev s)) q
  = if station_eqb q (queue_id ev) then true else get (server_busy s) q.
Proof.
  unfold handle_arrival. simpl.
  destruct (get (server_busy s) (queue_id ev)) eqn:Hb; simpl.
  - destruct (station_eqb q (queue_id ev)) eqn:E; [|reflexivity].
    apply station_eqb_eq in E. congruence.
  - destruct (expovariate _ _). simpl. apply get_upd.
Qed.

Lemma handle_arrival_events ev (s : State G) :
  events (handle_arrival cfg ev s)
  = if get (server_busy s) (queue_id ev) then events s
    else sort (events s ++
                 [mkEvent (clock s + fst (expovariate (get (MU_RATES cfg) (queue_id ev)) (rng s)))
                    DEPARTURE (customer ev) (queue_id ev)]).
Proof.
  unfold handle_arrival. simpl.
  destruct (get (server_busy s) (queue_id ev)); simpl; [reflexivity|].
  destruct (expovariate _ _). reflexivity.
Qed.

Lemma handle_exit_events c (s : State G) :
  events (handle_exit cfg c s) = events s.
Proof. unfold handle_exit. crush_frame. Qed.

Lemma handle_exit_queues c (s : State G) :
  queues (handle_exit cfg c s) = queues s.
Proof. unfold handle_exit. crush_frame. Qed.

Lemma handle_exit_server_busy c (s : State G) :
  server_busy (handle_exit cfg c s) = server_busy s.
Proof. unfold handle_exit. crush_frame. Qed.

Lemma handle_exit_clock c (s : State G) :
  clock (handle_exit cfg c s) = clock s.
Proof. unfold handle_exit. crush_frame. Qed.

Lemma handle_exit_cust_counter c (s : State G) :
  cust_counter (handle_exit cfg c s) = cust_counter s.
Proof. unfold handle_exit. crush_frame. Qed.

Lemma start_next_clock q (s : State G) :
  clock (start_next cfg q s) = clock s.
Proof. unfold start_next. crush_frame. Qed.

Lemma start_next_cust_counter q (s : State G) :
  cust_counter (start_next cfg q s) = cust_counter s.
Proof. unfold start_next. crush_frame. Qed.

Lemma start_next_queues q (s : State G) :
  queues (start_next cfg q s) = queues s.
Proof. unfold start_next. crush_frame. Qed.

Lemma start_next_stats q (s : State G) :
  stats (start_next cfg q s) = stats s.
Proof. unfold start_next. crush_frame. Qed.

Lemma start_next_is_warming_up q (s : State G) :
  is_warming_up (start_next cfg q s) = is_warming_up s.
Proof. unfold start_next. crush_frame. Qed.

Lemma start_next_warmup_count q (s : State G) :
  warmup_count (start_next cfg q s) = warmup_count s.
Proof. unfold start_next. crush_frame. Qed.

Lemma start_next_steady_start_time q (s : State G) :
  steady_start_time (start_next cfg q s) = steady_start_time s.
Proof. unfold start_next. crush_frame. Qed.

Lemma start_next_completed_count q (s : State G) :
  completed_count (start_next cfg q s) = completed_count s.
Proof. unfold start_next. crush_frame. Qed.

Lemma next_external_queues (s : State G) :
  queues (next_external cfg s) = queues s.
Proof. unfold next_external. simpl. crush_frame. Qed.

Lemma next_external_server_busy (s : State G) :
  server_busy (next_external cfg s) = server_busy s.
Proof. unfold next_external. simpl. crush_frame. Qed.

Lemma next_external_stats (s : State G) :
  stats (next_external cfg s) = stats s.
Proof. unfold next_external. simpl. crush_frame. Qed.

Lemma next_external_clock (s : State G) :
  clock (next_external cfg s) = clock s.
Proof. unfold next_external. simpl. crush_frame. Qed.

Lemma next_external_is_warming_up (s : State G) :
  is_warming_up (next_external cfg s) = is_warming_up s.
Proof. unfold next_external. simpl. crush_frame. Qed.

Lemma next_external_warmup_count (s : State G) :
  warmup_count (next_external cfg s) = warmup_count s.
Proof. unfold next_external. simpl. crush_frame. Qed.

Lemma next_external_cust_counter (s : State G) :
  cust_counter (next_external cfg s) = (cust_counter s + 1)%Z.
Proof. unfold next_external. simpl. crush_frame. Qed.

Lemma next_external_events (s : State G) :
  events (next_external cfg s)
  = sort (events s ++
            [mkEvent (clock s + fst (expovariate (LAMBDA_SOURCE_RATE cfg) (rng s)))
               ARRIVAL (mkCustomer (cust_counter s + 1) (clock s)) St1]).
Proof. unfold next_external. simpl. destruct (expovariate _ _). reflexivity. Qed.

Lemma route_other q r nq : route cfg q r = Some nq -> nq <> q.
Proof.
  destruct q; simpl; intros H;
    repeat match type of H with
           | context [if ?b then _ else _] => destruct b
           end; inversion H; discriminate.
Qed.

(** The cases of a call of [step] that processes an event. *)
Lemma step_inv (s : State G) ev s' :
  step cfg s = Processed ev s' ->
  exists rest,
    events s = ev :: rest /\
    (completed_count s < MAX_COMPLETED cfg)%Z /\
    let s0 := set_clock (time ev) (update_accumulators (set_events rest s)) in
    (type ev = ARRIVAL /\ queue_id ev = St1 /\ id (customer ev) = cust_counter s /\
     s' = next_external cfg (handle_arrival cfg ev s0))
    \/ (type ev = ARRIVAL /\
        (queue_id ev <> St1 \/ id (customer ev) <> cust_counter s) /\
        s' = handle_arrival cfg ev s0)
    \/ (type ev = DEPARTURE /\ handle_departure cfg ev s0 = Some s').
Proof.
  unfold step. intros H.
  destruct (events s) as [|e rest] eqn:He; [discriminate|].
  destruct (MAX_COMPLETED cfg <=? completed_count s)%Z eqn:Hm; [discriminate|].
  apply Z.leb_gt in Hm.
  destruct (type e) eqn:Ht.
  - destruct (station_eqb (queue_id e) St1 && _) eqn:Hc;
      inversion H; subst; exists rest; (split; [reflexivity|]);
        (split; [assumption|]).
    + left. apply andb_true_iff in Hc. destruct Hc as [H1 H2].
      apply station_eqb_eq in H1. apply Z.eqb_eq in H2.
      rewrite handle_arrival_cust_counter in H2. simpl in H2.
      rewrite update_accumulators_cust_counter in H2. simpl in H2. auto.
    + right. left. split; [assumption|]. split; [|reflexivity].
      apply andb_false_iff in Hc. destruct Hc as [H1|H2].
      * left. intros E. rewrite E in H1. discriminate.
      * right. apply Z.eqb_neq in H2.
        rewrite handle_arrival_cust_counter in H2. simpl in H2.
        rewrite update_accumulators_cust_counter in H2. assumption.
  - destruct (handle_departure _ _ _) eqn:Hd; inversion H; subst.
    exists rest. split; [reflexivity|]. split; [assumption|].
    right. right. auto.
Qed.

End Frames.

(** ** Busy flags, queues and pending departures *)

Section StationInvariant.

Context {G : Type} {RS : RandomSource G}.
Variable cfg : Config.

Lemma station_ok_short (s : State G) q :
  station_ok s q -> (length (deps q (events s)) <= 1)%nat.
Proof.
  unfold station_ok. destruct (get (server_busy s) q).
  - intros (c & rest & e & _ & -> & _). simpl. lia.
  - intros [_ ->]. simpl. lia.
Qed.

(** An arrival at another station leaves a station's view of the engine as
    it was. *)
Lemma handle_arrival_elsewhere ev (s : State G) q :
  q <> queue_id ev ->
  (length (deps q (events s)) <= 1)%nat ->
  get (queues (handle_arrival cfg ev s)) q = get (queues s) q /\
  get (server_busy (handle_arrival cfg ev s)) q = get (server_busy s) q /\
  deps q (events (handle_arrival cfg ev s)) = deps q (events s).
Proof.
  intros Hne Hlen.
  rewrite handle_arrival_queues, handle_arrival_server_busy, handle_arrival_events.
  rewrite get_upd_other by assumption.
  assert (Hf : station_eqb q (queue_id ev) = false).
  { destruct (station_eqb q (queue_id ev)) eqn:E; [|reflexivity].
    apply station_eqb_eq in E. contradiction. }
  rewrite Hf. repeat split.
  destruct (get (server_busy s) (queue_id ev)); [reflexivity|].
  apply filter_schedule_skip; [|assumption].
  simpl. rewrite station_eqb_eq_false; [reflexivity|]. congruence.
Qed.

Lemma handle_arrival_station_ok ev (s : State G) q :
  station_ok s q -> station_ok (handle_arrival cfg ev s) q.
Proof.
  intros Hok. destruct (station_eq_dec q (queue_id ev)) as [->|Hne].
  - unfold station_ok in *.
    rewrite handle_arrival_queues, handle_arrival_server_busy, handle_arrival_events.
    rewrite station_eqb_refl, get_upd_same.
    destruct (get (server_busy s) (queue_id ev)).
    + destruct Hok as (c & rest & e & Hq & Hd & Hc).
      exists c, (rest ++ [customer ev]), e. rewrite Hq. auto.
    + destruct Hok as [Hq Hd]. rewrite Hq.
      eexists _, [], _. split; [reflexivity|]. split.
      * apply filter_schedule_new; [|assumption].
        simpl. apply station_eqb_refl.
      * reflexivity.
  - destruct (handle_arrival_elsewhere ev s q Hne (station_ok_short s q Hok))
      as (Hq & Hb & Hd).
    unfold station_ok in *. rewrite Hq, Hb, Hd. assumption.
Qed.

Lemma station_ok_ext (s s' : State G) q :
  get (queues s') q = get (queues s) q ->
  get (server_busy s') q = get (server_busy s) q ->
  deps q (events s') = deps q (events s) ->
  station_ok s q -> station_ok s' q.
Proof.
  unfold station_ok. intros -> -> ->. trivial.
Qed.

Lemma start_next_station_ok q0 (s : State G) :
  (forall q, q <> q0 -> station_ok s q) ->
  deps q0 (events s) = [] ->
  forall q, station_ok (start_next cfg q0 s) q.
Proof.
  intros Hoth Hd q. unfold start_next.
  destruct (get (queues s) q0) as [|nxt_c l] eqn:Hq.
  - destruct (station_eq_dec q q0) as [->|Hne].
    + unfold station_ok. simpl. rewrite get_upd_same. auto.
    + apply station_ok_ext with (s := s); simpl; auto.
      apply get_upd_other. assumption.
  - simpl. destruct (expovariate _ _) as [svc_time g]. simpl.
    destruct (station_eq_dec q q0) as [->|Hne].
    + unfold station_ok. simpl. rewrite get_upd_same.
      eexists nxt_c, l, _. split; [assumption|]. split.
      * apply filter_schedule_new; [|assumption].
        simpl. apply station_eqb_refl.
      * reflexivity.
    + apply station_ok_ext with (s := s); simpl; auto.
      * apply get_upd_other. assumption.
      * apply filter_schedule_skip.
        -- simpl. apply station_eqb_eq_false. congruence.
        -- apply station_ok_short. auto.
Qed.

Lemma handle_departure_station_ok ev (s s' : State G) :
  (forall q, q <> queue_id ev -> station_ok s q) ->
  deps (queue_id ev) (events s) = [] ->
  handle_departure cfg ev s = Some s' ->
  forall q, station_ok s' q.
Proof.
  intros Hoth Hd H. unfold handle_departure in H.
  destruct (get (queues s) (queue_id ev)) as [|c rest] eqn:Hq; [discriminate|].
  simpl in H. destruct (random (rng s)) as [r g]. simpl in H.
  inversion H; subst s'; clear H.
  apply start_next_station_ok.
  - intros q Hne.
    destruct (route cfg (queue_id ev) r) as [next_q|] eqn:Hr.
    + apply handle_arrival_station_ok.
      apply station_ok_ext with (s := s); simpl; auto.
      apply get_upd_other. assumption.
    + apply station_ok_ext with (s := s);
        rewrite ?handle_exit_queues, ?handle_exit_server_busy, ?handle_exit_events;
        simpl; auto.
      apply get_upd_other. assumption.
  - destruct (route cfg (queue_id ev) r) as [next_q|] eqn:Hr.
    + apply route_other in Hr.
      match goal with
      | |- deps _ (events (handle_arrival cfg ?e ?st)) = _ =>
          destruct (handle_arrival_elsewhere e st (queue_id ev)) as (_ & _ & ->)
      end; simpl; auto.
      rewrite Hd. simpl. lia.
    + rewrite handle_exit_events. simpl. assumption.
Qed.

Lemma step_station_ok (s : State G) ev s' :
  (forall q, station_ok s q) ->
  step cfg s = Processed ev s' ->
  forall q, station_ok s' q.
Proof.
  intros Hok Hstep. apply step_inv in Hstep.
  destruct Hstep as (rest & Hev & _ & Hcase). cbv zeta in Hcase.
  assert (Hpop : forall q, (is_departure ev && station_eqb (queue_id ev) q) = false ->
            station_ok (set_clock (time ev) (update_accumulators (set_events rest s))) q).
  { intros q Hf. apply station_ok_ext with (s := s); simpl;
      rewrite ?update_accumulators_queues, ?update_accumulators_server_busy,
        ?update_accumulators_events; simpl; auto.
    rewrite Hev. symmetry. apply deps_cons_skip. assumption. }
  destruct Hcase as [(Ht & _ & _ & ->) | [(Ht & _ & ->) | (Ht & Hd)]].
  - intros q. apply station_ok_ext with
      (s := handle_arrival cfg ev (set_clock (time ev)
              (update_accumulators (set_events rest s)))).
    + rewrite next_external_queues. reflexivity.
    + rewrite next_external_server_busy. reflexivity.
    + rewrite next_external_events. apply filter_schedule_skip; [reflexivity|].
      apply station_ok_short. apply handle_arrival_station_ok. apply Hpop.
      unfold is_departure. rewrite Ht. reflexivity.
    + apply handle_arrival_station_ok. apply Hpop.
      unfold is_departure. rewrite Ht. reflexivity.
  - intros q. apply handle_arrival_station_ok. apply Hpop.
    unfold is_departure. rewrite Ht. reflexivity.
  - eapply handle_departure_station_ok; [| |exact Hd].
    + intros q Hne. apply Hpop. rewrite station_eqb_eq_false by congruence.
      apply andb_false_r.
    + simpl. rewrite update_accumulators_events. simpl.
      specialize (Hok (queue_id ev)). unfold station_ok in Hok.
      rewrite Hev, deps_cons_own in Hok by assumption.
      destruct (get (server_busy s) (queue_id ev)).
      * destruct Hok as (c & l & e & _ & He & _). congruence.
      * destruct Hok as [_ He]. discriminate.
Qed.

Lemma reset_station_ok g q : station_ok (reset cfg g) q.
Proof.
  unfold reset. destruct (expovariate _ _) as [t g'].
  unfold station_ok. destruct q; simpl; auto.
Qed.

Lemma reachable_station_ok (s : State G) :
  reachable cfg s -> forall q, station_ok s q.
Proof.
  induction 1 as [g|s ev s' _ IH Hstep].
  - apply reset_station_ok.
  - eapply step_station_ok; eassumption.
Qed.

(** In a state that satisfies the station invariant [step] does not raise. *)
Lemma step_no_raise (s : State G) :
  (forall q, station_ok s q) -> step cfg s <> Raised.
Proof.
  intros Hok. unfold step.
  destruct (events s) as [|ev rest] eqn:Hev; [discriminate|].
  destruct (MAX_COMPLETED cfg <=? completed_count s)%Z; [discriminate|].
  destruct (type ev) eqn:Ht.
  - destruct (_ && _); discriminate.
  - unfold handle_departure. simpl. rewrite update_accumulators_queues. simpl.
    specialize (Hok (queue_id ev)). unfold station_ok in Hok.
    rewrite Hev, deps_cons_own in Hok by assumption.
    destruct (get (server_busy s) (queue_id ev)).
    + destruct Hok as (c & l & e & -> & _).
      destruct (random _). discriminate.
    + destruct Hok as [_ He]. discriminate.
Qed.

End StationInvariant.

(** ** The pending external arrival *)

Section SourceInvariant.

Context {G : Type} {RS : RandomSource G}.
Variable cfg : Config.

Lemma handle_arrival_arrs ev (s : State G) :
  (length (arrs (events s)) <= 1)%nat ->
  arrs (events (handle_arrival cfg ev s)) = arrs (events s).
Proof.
  intros Hl. rewrite handle_arrival_events.
  destruct (get (server_busy s) (queue_id ev)); [reflexivity|].
  apply filter_schedule_skip; [reflexivity|assumption].
Qed.

Lemma start_next_arrs q (s : State G) :
  (length (arrs (events s)) <= 1)%nat ->
  arrs (events (start_next cfg q s)) = arrs (events s).
Proof.
  intros Hl. unfold start_next.
  destruct (get (queues s) q); [reflexivity|].
  simpl. destruct (expovariate _ _). simpl.
  apply filter_schedule_skip; [reflexivity|assumption].
Qed.

Lemma handle_departure_arrs ev (s s' : State G) :
  (length (arrs (events s)) <= 1)%nat ->
  handle_departure cfg ev s = Some s' ->
  arrs (events s') = arrs (events s) /\ cust_counter s' = cust_counter s.
Proof.
  intros Hl H. unfold handle_departure in H.
  destruct (get (queues s) (queue_id ev)) as [|c rest]; [discriminate|].
  simpl in H. destruct (random (rng s)) as [r g]. simpl in H.
  inversion H; subst s'; clear H.
  rewrite start_next_cust_counter.
  destruct (route cfg (queue_id ev) r) as [next_q|].
  - rewrite handle_arrival_cust_counter. simpl. split; [|reflexivity].
    rewrite start_next_arrs; rewrite handle_arrival_arrs; simpl; auto.
  - rewrite handle_exit_cust_counter. simpl. split; [|reflexivity].
    rewrite start_next_arrs; rewrite handle_exit_events; simpl; auto.
Qed.

Lemma step_source_ok (s : State G) ev s' :
  source_ok s -> step cfg s = Processed ev s' -> source_ok s'.
Proof.
  intros (e & Ha & Hq & Hid) Hstep. apply step_inv in Hstep.
  destruct Hstep as (rest & Hev & _ & Hcase). cbv zeta in Hcase.
  rewrite Hev in Ha. unfold arrs in Ha. simpl in Ha.
  destruct Hcase as [(Ht & _ & _ & ->) | [(Ht & Hno & ->) | (Ht & Hd)]].
  - unfold is_arrival in Ha at 1. rewrite Ht in Ha.
    inversion Ha as [[He Hrest]]. clear Ha.
    unfold source_ok. rewrite next_external_events, next_external_cust_counter.
    eexists. split.
    + apply filter_schedule_new; [reflexivity|].
      fold (arrs (events (handle_arrival cfg ev
              (set_clock (time ev) (update_accumulators (set_events rest s)))))).
      rewrite handle_arrival_arrs; simpl; rewrite update_accumulators_events; simpl.
      * assumption.
      * unfold arrs. rewrite Hrest. simpl. lia.
    + simpl. rewrite handle_arrival_cust_counter. split; reflexivity.
  - unfold is_arrival in Ha at 1. rewrite Ht in Ha.
    inversion Ha as [[He Hrest]]. subst e. tauto.
  - unfold is_arrival in Ha at 1. rewrite Ht in Ha.
    apply handle_departure_arrs in Hd.
    + destruct Hd as [Hd1 Hd2]. simpl in Hd1, Hd2.
      rewrite update_accumulators_events in Hd1.
      rewrite update_accumulators_cust_counter in Hd2. simpl in Hd1, Hd2.
      exists e. unfold arrs in *. rewrite Hd1, Hd2. auto.
    + simpl. rewrite update_accumulators_events. simpl.
      unfold arrs. rewrite Ha. simpl. lia.
Qed.

Lemma reset_source_ok g : source_ok (reset cfg g).
Proof.
  unfold reset. destruct (expovariate _ _) as [t g'].
  unfold source_ok. simpl. eexists. split; [reflexivity|]. auto.
Qed.

Lemma reachable_source_ok (s : State G) : reachable cfg s -> source_ok s.
Proof.
  induction 1 as [g|s ev s' _ IH Hstep].
  - apply reset_source_ok.
  - eapply step_source_ok; eassumption.
Qed.

End SourceInvariant.

(** ** Time order of the pending events *)

Section TimeInvariant.

Context {G : Type} {RS : RandomSource G}.
Variable cfg : Config.

(** Every interarrival and service draw is non-negative. *)
Hypothesis draws_nonneg : forall rate (g : G), 0 <= fst (expovariate rate g).

Lemma Qle_plus_nonneg x d : 0 <= d -> x <= x + d.
Proof.
  intros Hd. rewrite <- (Qplus_0_r x) at 1.
  apply Qplus_le_compat; [apply Qle_refl | assumption].
Qed.

Lemma fel_ok_ext (s s' : State G) :
  clock s' = clock s -> events s' = events s -> fel_ok s -> fel_ok s'.
Proof. unfold fel_ok. intros -> ->. trivial. Qed.

Lemma fel_ok_schedule (s s' : State G) e :
  clock s' = clock s -> events s' = sort (events s ++ [e]) ->
  clock s <= time e -> fel_ok s -> fel_ok s'.
Proof.
  unfold fel_ok. intros -> -> He [_ Hall]. split.
  - apply sort_sorted.
  - apply Forall_sort. apply Forall_app. split; [assumption|].
    constructor; [assumption|constructor].
Qed.

Lemma handle_arrival_fel_ok ev (s : State G) :
  fel_ok s -> fel_ok (handle_arrival cfg ev s).
Proof.
  intros Hok.
  destruct (get (server_busy s) (queue_id ev)) eqn:Hb.
  - apply fel_ok_ext with (s := s); auto using handle_arrival_clock.
    rewrite handle_arrival_events, Hb. reflexivity.
  - eapply fel_ok_schedule with (s := s); eauto using handle_arrival_clock.
    + rewrite handle_arrival_events, Hb. reflexivity.
    + simpl. apply Qle_plus_nonneg, draws_nonneg.
Qed.

Lemma next_external_fel_ok (s : State G) :
  fel_ok s -> fel_ok (next_external cfg s).
Proof.
  intros Hok.
  eapply fel_ok_schedule with (s := s); eauto using next_external_clock.
  - apply next_external_events.
  - simpl. apply Qle_plus_nonneg, draws_nonneg.
Qed.

Lemma start_next_fel_ok q (s : State G) :
  fel_ok s -> fel_ok (start_next cfg q s).
Proof.
  intros Hok. unfold start_next.
  destruct (get (queues s) q) as [|nxt_c l].
  - apply fel_ok_ext with (s := s); auto.
  - simpl. pose proof (draws_nonneg (get (MU_RATES cfg) q) (rng s)) as Hd.
    destruct (expovariate _ _) as [svc_time g]. simpl in *.
    eapply fel_ok_schedule with (s := s);
      [reflexivity | reflexivity | | assumption].
    simpl. apply Qle_plus_nonneg. assumption.
Qed.

Lemma handle_departure_fel_ok ev (s s' : State G) :
  fel_ok s -> handle_departure cfg ev s = Some s' -> fel_ok s'.
Proof.
  intros Hok H. unfold handle_departure in H.
  destruct (get (queues s) (queue_id ev)) as [|c rest]; [discriminate|].
  simpl in H. destruct (random (rng s)) as [r g]. simpl in H.
  inversion H; subst s'; clear H.
  apply start_next_fel_ok.
  destruct (route cfg (queue_id ev) r) as [next_q|].
  - apply handle_arrival_fel_ok. apply fel_ok_ext with (s := s); auto.
  - apply fel_ok_ext with (s := s); auto.
    + rewrite handle_exit_clock. reflexivity.
    + rewrite handle_exit_events. reflexivity.
Qed.

(** Popping the head of the list and moving the clock to its time. *)
Lemma pop_fel_ok (s : State G) ev rest :
  events s = ev :: rest -> fel_ok s ->
  clock s <= time ev /\
  fel_ok (set_clock (time ev) (update_accumulators (set_events rest s))).
Proof.
  unfold fel_ok. intros Hev [Hs Hall]. rewrite Hev in *.
  inversion Hs as [|? ? Hs' Hhd]; subst. inversion Hall; subst.
  split; [assumption|]. simpl. rewrite update_accumulators_events. simpl.
  split; assumption.
Qed.

Lemma step_clock (s : State G) ev s' :
  step cfg s = Processed ev s' -> clock s' = time ev.
Proof.
  intros Hstep. apply step_inv in Hstep.
  destruct Hstep as (rest & Hev & _ & Hcase). cbv zeta in Hcase.
  destruct Hcase as [(Ht & _ & _ & ->) | [(Ht & _ & ->) | (Ht & Hd)]].
  - rewrite next_external_clock, handle_arrival_clock. reflexivity.
  - rewrite handle_arrival_clock. reflexivity.
  - unfold handle_departure in Hd.
    destruct (get (queues _) (queue_id ev)) as [|c l]; [discriminate|].
    simpl in Hd. destruct (random _) as [r g]. simpl in Hd.
    inversion Hd; subst s'; clear Hd.
    rewrite start_next_clock.
    destruct (route cfg (queue_id ev) r).
    + rewrite handle_arrival_clock. reflexivity.
    + rewrite handle_exit_clock. reflexivity.
Qed.

Lemma step_fel_ok (s : State G) ev s' :
  fel_ok s -> step cfg s = Processed ev s' -> fel_ok s'.
Proof.
  intros Hok Hstep. apply step_inv in Hstep.
  destruct Hstep as (rest & Hev & _ & Hcase). cbv zeta in Hcase.
  destruct (pop_fel_ok s ev rest Hev Hok) as [_ Hpop].
  destruct Hcase as [(Ht & _ & _ & ->) | [(Ht & _ & ->) | (Ht & Hd)]].
  - apply next_external_fel_ok, handle_arrival_fel_ok, Hpop.
  - apply handle_arrival_fel_ok, Hpop.
  - eapply handle_departure_fel_ok; eassumption.
Qed.

Lemma reset_fel_ok g : fel_ok (reset cfg g).
Proof.
  unfold reset. pose proof (draws_nonneg (LAMBDA_SOURCE_RATE cfg) g) as Hd.
  destruct (expovariate _ _) as [t g']. simpl in Hd.
  unfold fel_ok. simpl. split.
  - repeat constructor.
  - repeat constructor. assumption.
Qed.

Lemma reachable_fel_ok (s : State G) : reachable cfg s -> fel_ok s.
Proof.
  induction 1 as [g|s ev s' _ IH Hstep].
  - apply reset_fel_ok.
  - eapply step_fel_ok; eassumption.
Qed.

End TimeInvariant.

(** ** Warm-up *)

Section WarmupInvariant.

Context {G : Type} {RS : RandomSource G}.
Variable cfg : Config.

Lemma update_accumulators_stats_warm (s : State G) :
  is_warming_up s = true -> stats (update_accumulators s) = stats s.
Proof. unfold update_accumulators. intros ->. reflexivity. Qed.

Lemma update_accumulators_counts (s : State G) q :
  counts (get (stats (update_accumulators s)) q) = counts (get (stats s) q).
Proof.
  unfold update_accumulators. destruct (is_warming_up s); [reflexivity|].
  unfold accumulate, range_1_5, counts.
  destruct q;
    cbn [fold_left get upd set_stats set_last_update stats queues server_busy
         clock last_update at1 at2 at3 at4];
    repeat match goal with
           | |- context [if ?b then _ else _] => destruct b
           end; reflexivity.
Qed.

Lemma handle_arrival_integrals ev (s : State G) q :
  integrals (get (stats (handle_arrival cfg ev s)) q) = integrals (get (stats s) q).
Proof.
  rewrite handle_arrival_stats. cbv zeta. rewrite get_upd.
  destruct (station_eqb q (queue_id ev)) eqn:E; [|reflexivity].
  apply station_eqb_eq in E. subst q. reflexivity.
Qed.

Lemma warmup_ok_ext (s s' : State G) :
  is_warming_up s' = is_warming_up s ->
  warmup_count s' = warmup_count s ->
  (is_warming_up s = true ->
   forall q, integrals (get (stats s') q) = integrals (get (stats s) q)) ->
  warmup_ok cfg s -> warmup_ok cfg s'.
Proof.
  unfold warmup_ok, integrals_zero. intros -> -> Hi [H1 H2]. split; [|assumption].
  intros Hw q. rewrite Hi by assumption. auto.
Qed.

Lemma handle_exit_warmup_ok c (s : State G) :
  warmup_ok cfg s -> warmup_ok cfg (handle_exit cfg c s).
Proof.
  unfold handle_exit. intros [H1 H2].
  destruct (is_warming_up s) eqn:Hw; simpl.
  - destruct (WARM_UP_CUSTOMERS cfg <=? warmup_count s + 1)%Z eqn:Ht.
    + apply Z.leb_le in Ht. split; simpl; [discriminate|auto].
    + split; simpl; [auto|congruence].
  - split; simpl; [congruence|auto].
Qed.

(** The exit that ends the warm-up leaves zeroed statistics behind. *)
Lemma handle_exit_flip c (s : State G) :
  is_warming_up s = true -> is_warming_up (handle_exit cfg c s) = false ->
  stats_zero (handle_exit cfg c s) /\
  steady_start_time (handle_exit cfg c s) = clock s.
Proof.
  unfold handle_exit. intros Hw. rewrite Hw. simpl.
  destruct (WARM_UP_CUSTOMERS cfg <=? warmup_count s + 1)%Z; simpl.
  - intros _. split; [|reflexivity]. intros q. destruct q; reflexivity.
  - congruence.
Qed.

Lemma handle_exit_stays_false c (s : State G) :
  is_warming_up s = false -> is_warming_up (handle_exit cfg c s) = false.
Proof. unfold handle_exit. intros Hw. rewrite Hw. simpl. exact Hw. Qed.

(** Without a change of the warm-up flag the exit leaves the statistics
    alone. *)
Lemma handle_exit_stats_same c (s : State G) :
  is_warming_up (handle_exit cfg c s) = is_warming_up s ->
  stats (handle_exit cfg c s) = stats s.
Proof.
  unfold handle_exit. destruct (is_warming_up s) eqn:Hw; simpl; [|reflexivity].
  destruct (WARM_UP_CUSTOMERS cfg <=? warmup_count s + 1)%Z; simpl;
    [discriminate|reflexivity].
Qed.

(** The shape of a successful [handle_departure]. *)
Lemma handle_departure_inv ev (s s' : State G) :
  handle_departure cfg ev s = Some s' ->
  exists c rest r g,
    get (queues s) (queue_id ev) = c :: rest /\
    random (rng s) = (r, g) /\
    let st := get (stats s) (queue_id ev) in
    let s1 :=
      set_rng g
        (set_stats (upd (stats s) (queue_id ev)
                      (mkStats (L_accum st) (Q_accum st) (Busy_accum st)
                         (Arrivals st) (Departures st + 1)%Z))
           (set_queues (upd (queues s) (queue_id ev) rest) s)) in
    (route cfg (queue_id ev) r = None /\
     s' = start_next cfg (queue_id ev) (handle_exit cfg c s1))
    \/ (exists next_q, route cfg (queue_id ev) r = Some next_q /\
         s' = start_next cfg (queue_id ev)
                (handle_arrival cfg (mkEvent (clock s) ARRIVAL c next_q) s1)).
Proof.
  unfold handle_departure. intros H.
  destruct (get (queues s) (queue_id ev)) as [|c rest]; [discriminate|].
  simpl in H. destruct (random (rng s)) as [r g]. simpl in H.
  exists c, rest, r, g. split; [reflexivity|]. split; [reflexivity|].
  cbv zeta. destruct (route cfg (queue_id ev) r) as [next_q|].
  - right. exists next_q. split; [reflexivity|]. congruence.
  - left. split; [reflexivity|]. congruence.
Qed.

Lemma departure_integrals (s : State G) q0 rest g q :
  let st := get (stats s) q0 in
  integrals (get (stats
    (set_rng g
       (set_stats (upd (stats s) q0
                     (mkStats (L_accum st) (Q_accum st) (Busy_accum st)
                        (Arrivals st) (Departures st + 1)%Z))
          (set_queues (upd (queues s) q0 rest) s)))) q)
  = integrals (get (stats s) q).
Proof.
  simpl. rewrite get_upd.
  destruct (station_eqb q q0) eqn:E; [|reflexivity].
  apply station_eqb_eq in E. subst q. reflexivity.
Qed.

Lemma handle_departure_warmup_ok ev (s s' : State G) :
  warmup_ok cfg s -> handle_departure cfg ev s = Some s' -> warmup_ok cfg s'.
Proof.
  intros Hok H. apply handle_departure_inv in H.
  destruct H as (c & rest & r & g & Hq & Hr & Hcase). cbv zeta in Hcase.
  destruct Hcase as [(Hrt & ->) | (next_q & Hrt & ->)].
  - eapply warmup_ok_ext;
      [apply start_next_is_warming_up | apply start_next_warmup_count
       | intros _ q; rewrite start_next_stats; reflexivity |].
    apply handle_exit_warmup_ok.
    eapply warmup_ok_ext; [| | |exact Hok]; try reflexivity.
    intros _ q. apply departure_integrals.
  - eapply warmup_ok_ext;
      [apply start_next_is_warming_up | apply start_next_warmup_count
       | intros _ q; rewrite start_next_stats; reflexivity |].
    eapply warmup_ok_ext;
      [apply handle_arrival_is_warming_up | apply handle_arrival_warmup_count
       | intros _ q; apply handle_arrival_integrals |].
    eapply warmup_ok_ext; [| | |exact Hok]; try reflexivity.
    intros _ q. apply departure_integrals.
Qed.

Lemma pop_warmup_ok (s : State G) ev rest :
  warmup_ok cfg s ->
  warmup_ok cfg (set_clock (time ev) (update_accumulators (set_events rest s))).
Proof.
  intros Hok. eapply warmup_ok_ext; [| | |exact Hok]; simpl.
  - rewrite update_accumulators_is_warming_up. reflexivity.
  - rewrite update_accumulators_warmup_count. reflexivity.
  - intros Hw q. rewrite update_accumulators_stats_warm by assumption.
    reflexivity.
Qed.

Lemma step_warmup_ok (s : State G) ev s' :
  warmup_ok cfg s -> step cfg s = Processed ev s' -> warmup_ok cfg s'.
Proof.
  intros Hok Hstep. apply step_inv in Hstep.
  destruct Hstep as (rest & Hev & _ & Hcase). cbv zeta in Hcase.
  pose proof (pop_warmup_ok s ev rest Hok) as Hpop.
  destruct Hcase as [(Ht & _ & _ & ->) | [(Ht & _ & ->) | (Ht & Hd)]].
  - eapply warmup_ok_ext;
      [apply next_external_is_warming_up | apply next_external_warmup_count
       | intros _ q; rewrite next_external_stats; reflexivity |].
    eapply warmup_ok_ext;
      [apply handle_arrival_is_warming_up | apply handle_arrival_warmup_count
       | intros _ q; apply handle_arrival_integrals | exact Hpop].
  - eapply warmup_ok_ext;
      [apply handle_arrival_is_warming_up | apply handle_arrival_warmup_count
       | intros _ q; apply handle_arrival_integrals | exact Hpop].
  - eapply handle_departure_warmup_ok; eassumption.
Qed.

Lemma reset_warmup_ok g : warmup_ok cfg (reset cfg g).
Proof.
  unfold reset. destruct (expovariate _ _) as [t g'].
  split; simpl; [|discriminate].
  intros _ q. destruct q; reflexivity.
Qed.

Lemma reachable_warmup_ok (s : State G) : reachable cfg s -> warmup_ok cfg s.
Proof.
  induction 1 as [g|s ev s' _ IH Hstep].
  - apply reset_warmup_ok.
  - eapply step_warmup_ok; eassumption.
Qed.

(** Once the warm-up is over it stays over. *)
Lemma step_stays_false (s : State G) ev s' :
  is_warming_up s = false -> step cfg s = Processed ev s' ->
  is_warming_up s' = false.
Proof.
  intros Hw Hstep. apply step_inv in Hstep.
  destruct Hstep as (rest & Hev & _ & Hcase). cbv zeta in Hcase.
  destruct Hcase as [(Ht & _ & _ & ->) | [(Ht & _ & ->) | (Ht & Hd)]].
  - rewrite next_external_is_warming_up, handle_arrival_is_warming_up. simpl.
    rewrite update_accumulators_is_warming_up. assumption.
  - rewrite handle_arrival_is_warming_up. simpl.
    rewrite update_accumulators_is_warming_up. assumption.
  - apply handle_departure_inv in Hd.
    destruct Hd as (c & l & r & g & Hq & Hr & Hcase). cbv zeta in Hcase.
    destruct Hcase as [(Hrt & ->) | (next_q & Hrt & ->)];
      rewrite start_next_is_warming_up.
    + apply handle_exit_stays_false. simpl.
      rewrite update_accumulators_is_warming_up. assumption.
    + rewrite handle_arrival_is_warming_up. simpl.
      rewrite update_accumulators_is_warming_up. assumption.
Qed.

(** The step that ends the warm-up. *)
Lemma step_flip (s : State G) ev s' :
  is_warming_up s = true -> step cfg s = Processed ev s' ->
  is_warming_up s' = false ->
  stats_zero s' /\ steady_start_time s' = clock s'.
Proof.
  intros Hw Hstep Hw'. pose proof Hstep as Hinv. apply step_inv in Hinv.
  destruct Hinv as (rest & Hev & _ & Hcase). cbv zeta in Hcase.
  destruct Hcase as [(Ht & _ & _ & ->) | [(Ht & _ & ->) | (Ht & Hd)]].
  - rewrite next_external_is_warming_up, handle_arrival_is_warming_up in Hw'.
    simpl in Hw'. rewrite update_accumulators_is_warming_up in Hw'.
    simpl in Hw'. congruence.
  - rewrite handle_arrival_is_warming_up in Hw'.
    simpl in Hw'. rewrite update_accumulators_is_warming_up in Hw'.
    simpl in Hw'. congruence.
  - apply handle_departure_inv in Hd.
    destruct Hd as (c & l & r & g & Hq & Hr & Hcase). cbv zeta in Hcase.
    destruct Hcase as [(Hrt & ->) | (next_q & Hrt & ->)];
      rewrite start_next_is_warming_up in Hw'.
    + apply handle_exit_flip in Hw'.
      * destruct Hw' as [Hz Hst]. split.
        -- intros q. rewrite start_next_stats. apply Hz.
        -- rewrite start_next_steady_start_time, start_next_clock,
             handle_exit_clock. exact Hst.
      * simpl. rewrite update_accumulators_is_warming_up. assumption.
    + rewrite handle_arrival_is_warming_up in Hw'. simpl in Hw'.
      rewrite update_accumulators_is_warming_up in Hw'. simpl in Hw'.
      congruence.
Qed.

End WarmupInvariant.

(** ** Conservation of customers *)

Section Conservation.

Context {G : Type} {RS : RandomSource G}.
Variable cfg : Config.

Lemma balance_ext (s s' : State G) q :
  get (queues s') q = get (queues s) q ->
  counts (get (stats s') q) = counts (get (stats s) q) ->
  balance s' q = balance s q.
Proof.
  unfold balance, counts. intros -> Hc. inversion Hc as [[Ha Hd]].
  rewrite Ha, Hd. reflexivity.
Qed.

Lemma handle_arrival_balance ev (s : State G) q :
  balance (handle_arrival cfg ev s) q = balance s q.
Proof.
  unfold balance. rewrite handle_arrival_queues, handle_arrival_stats.
  cbv zeta. rewrite !get_upd.
  destruct (station_eqb q (queue_id ev)) eqn:E; [|reflexivity].
  apply station_eqb_eq in E. subst q. cbn [Arrivals Departures].
  rewrite length_app, Nat2Z.inj_add. cbn [length]. lia.
Qed.

(** Taking the head customer out and counting the departure. *)
Lemma departure_balance (s : State G) q0 c rest g q :
  get (queues s) q0 = c :: rest ->
  let st := get (stats s) q0 in
  balance
    (set_rng g
       (set_stats (upd (stats s) q0
                     (mkStats (L_accum st) (Q_accum st) (Busy_accum st)
                        (Arrivals st) (Departures st + 1)%Z))
          (set_queues (upd (queues s) q0 rest) s))) q
  = balance s q.
Proof.
  intros Hq. unfold balance. simpl. rewrite !get_upd.
  destruct (station_eqb q q0) eqn:E; [|reflexivity].
  apply station_eqb_eq in E. subst q. rewrite Hq.
  cbn [length Arrivals Departures]. rewrite Nat2Z.inj_succ. lia.
Qed.

(** A step that does not end the warm-up keeps every station's balance. *)
Lemma step_balance (s : State G) ev s' :
  step cfg s = Processed ev s' ->
  is_warming_up s' = is_warming_up s ->
  forall q, balance s' q = balance s q.
Proof.
  intros Hstep Hw q. apply step_inv in Hstep.
  destruct Hstep as (rest & Hev & _ & Hcase). cbv zeta in Hcase.
  assert (Hpop : balance (set_clock (time ev)
                   (update_accumulators (set_events rest s))) q = balance s q).
  { apply balance_ext; simpl.
    - rewrite update_accumulators_queues. reflexivity.
    - rewrite update_accumulators_counts. reflexivity. }
  destruct Hcase as [(Ht & _ & _ & ->) | [(Ht & _ & ->) | (Ht & Hd)]].
  - rewrite <- Hpop.
    rewrite <- (handle_arrival_balance ev
                 (set_clock (time ev) (update_accumulators (set_events rest s))) q).
    apply balance_ext.
    + rewrite next_external_queues. reflexivity.
    + rewrite next_external_stats. reflexivity.
  - rewrite handle_arrival_balance. exact Hpop.
  - apply handle_departure_inv in Hd.
    destruct Hd as (c & l & r & g & Hq & Hr & Hcase). cbv zeta in Hcase.
    pose proof (departure_balance _ (queue_id ev) c l g q Hq) as Hdep.
    cbv zeta in Hdep. rewrite Hpop in Hdep.
    destruct Hcase as [(Hrt & ->) | (next_q & Hrt & ->)].
    + rewrite start_next_is_warming_up in Hw.
      etransitivity; [|exact Hdep].
      apply balance_ext.
      * rewrite start_next_queues, handle_exit_queues. reflexivity.
      * rewrite start_next_stats, handle_exit_stats_same; [reflexivity|].
        rewrite Hw. simpl. rewrite update_accumulators_is_warming_up.
        reflexivity.
    + rewrite <- Hdep.
      match goal with
      | |- balance (start_next _ _ (handle_arrival _ ?e ?st)) _ = _ =>
          rewrite <- (handle_arrival_balance e st q)
      end.
      apply balance_ext.
      * rewrite start_next_queues. reflexivity.
      * rewrite start_next_stats. reflexivity.
Qed.

Lemma reset_balance g q : balance (reset cfg g) q = 0%Z.
Proof.
  unfold reset. destruct (expovariate _ _) as [t g'].
  destruct q; reflexivity.
Qed.

Lemma reachable_balance (s : State G) :
  reachable cfg s -> is_warming_up s = true -> forall q, balance s q = 0%Z.
Proof.
  induction 1 as [g|s ev s' _ IH Hstep]; intros Hw q.
  - apply reset_balance.
  - destruct (is_warming_up s) eqn:Hws.
    + rewrite (step_balance s ev s' Hstep) by congruence. auto.
    + rewrite (step_stays_false cfg s ev s' Hws Hstep) in Hw. discriminate.
Qed.

End Conservation.

(** ** What [update_accumulators] adds *)

Section Accumulation.

Context {G : Type} {RS : RandomSource G}.
Variable cfg : Config.

(** After the warm-up, [update_accumulators] weighs the present queues with
    [clock - last_update], both read before the clock is moved. *)
Lemma update_accumulators_gain (s : State G) q :
  is_warming_up s = false ->
  let delta := clock s - last_update s in
  let n := Z.of_nat (length (get (queues s) q)) in
  let busy := get (server_busy s) q in
  let st := get (stats s) q in
  let st' := get (stats (update_accumulators s)) q in
  L_accum st' = L_accum st + inject_Z n * delta /\
  Q_accum st' = Q_accum st + inject_Z (if busy then Z.max 0 (n - 1) else 0) * delta /\
  Busy_accum st' = (if busy then Busy_accum st + delta else Busy_accum st).
Proof.
  intros Hw. unfold update_accumulators. rewrite Hw.
  unfold accumulate, range_1_5.
  destruct q;
    cbn [fold_left get upd set_stats set_last_update stats queues server_busy
         clock last_update L_accum Q_accum Busy_accum at1 at2 at3 at4];
    repeat match goal with
           | |- context [if ?b then _ else _] => destruct b
           end;
    cbn [L_accum Q_accum Busy_accum]; auto.
Qed.

Lemma update_accumulators_last_update (s : State G) :
  last_update (update_accumulators s) = clock s.
Proof.
  unfold update_accumulators. destruct (is_warming_up s); reflexivity.
Qed.

(** What a step after the warm-up adds to the time integrals of a station:
    the queue as it is before the event, times the gap between the clock and
    [last_update] as they are before the event. *)
Lemma step_gain (s : State G) ev s' q :
  is_warming_up s = false ->
  step cfg s = Processed ev s' ->
  let delta := clock s - last_update s in
  let n := Z.of_nat (length (get (queues s) q)) in
  let busy := get (server_busy s) q in
  let st := get (stats s) q in
  let st' := get (stats s') q in
  L_accum st' = L_accum st + inject_Z n * delta /\
  Q_accum st' = Q_accum st + inject_Z (if busy then Z.max 0 (n - 1) else 0) * delta /\
  Busy_accum st' = (if busy then Busy_accum st + delta else Busy_accum st).
Proof.
  intros Hw Hstep. cbv zeta.
  apply step_inv in Hstep.
  destruct Hstep as (rest & Hev & _ & Hcase). cbv zeta in Hcase.
  pose proof (update_accumulators_gain (set_events rest s) q Hw) as Hgain.
  cbv zeta in Hgain.
  cbn [set_events clock last_update queues server_busy stats] in Hgain.
  assert (Hw0 : is_warming_up
                  (set_clock (time ev) (update_accumulators (set_events rest s)))
                = false).
  { cbn [is_warming_up set_clock].
    rewrite update_accumulators_is_warming_up. exact Hw. }
  assert (Hi : integrals (get (stats s') q)
               = integrals (get (stats (update_accumulators (set_events rest s))) q)).
  { destruct Hcase as [(Ht & _ & _ & ->) | [(Ht & _ & ->) | (Ht & Hd)]].
    - rewrite next_external_stats, handle_arrival_integrals.
      cbn [stats set_clock]. reflexivity.
    - rewrite handle_arrival_integrals. cbn [stats set_clock]. reflexivity.
    - apply handle_departure_inv in Hd.
      destruct Hd as (c & l & r & g & Hq & Hr & Hcase). cbv zeta in Hcase.
      destruct Hcase as [(Hrt & ->) | (next_q & Hrt & ->)];
        rewrite start_next_stats.
      + rewrite handle_exit_stats_same.
        * rewrite (departure_integrals _ (queue_id ev) l g q).
          cbn [stats set_clock]. reflexivity.
        * rewrite handle_exit_stays_false; [|exact Hw0].
          symmetry. exact Hw0.
      + rewrite handle_arrival_integrals.
        rewrite (departure_integrals _ (queue_id ev) l g q).
        cbn [stats set_clock]. reflexivity. }
  unfold integrals in Hi. inversion Hi as [[HL HQ HB]].
  rewrite HL, HQ, HB. exact Hgain.
Qed.

End Accumulation.

(** ** Running the engine *)

Section Running.

Context {G : Type} {RS : RandomSource G}.
Variable cfg : Config.

Lemma run_reachable n : forall s : State G,
  reachable cfg s -> reachable cfg (snd (run cfg n s)).
Proof.
  induction n as [|n IH]; intros s Hs; simpl; [assumption|].
  destruct (step cfg s) as [|ev s'|] eqn:Hstep; simpl; try assumption.
  assert (Hs' : reachable cfg s') by (eapply reach_step; eassumption).
  specialize (IH s' Hs').
  destruct (run cfg n s') as [tr s'']. exact IH.
Qed.

(** Once [step] reports the end, more fuel changes nothing. *)
Lemma run_stable n : forall (s : State G) k,
  step cfg (snd (run cfg n s)) = Finished ->
  run cfg (n + k) s = run cfg n s.
Proof.
  induction n as [|n IH]; intros s k Hfin.
  - simpl in *. destruct k; simpl; [reflexivity|]. rewrite Hfin. reflexivity.
  - simpl in *. destruct (step cfg s) as [|ev s'|] eqn:Hstep; try reflexivity.
    specialize (IH s' k).
    destruct (run cfg n s') as [tr s''] eqn:Hrun. simpl in *.
    rewrite IH by assumption. reflexivity.
Qed.

Lemma steps_reachable (s s' : State G) :
  steps cfg s s' -> reachable cfg s -> reachable cfg s'.
Proof.
  induction 1 as [|s ev s' s'' Hstep _ IH]; intros Hs; [assumption|].
  apply IH. eapply reach_step; eassumption.
Qed.

End Running.

(** ** The deterministic trace *)

Lemma trace_finished :
  step (RS := trace_source) trace_config
    (snd (run (RS := trace_source) trace_config 26 trace_init)) = Finished.
Proof. vm_compute. reflexivity. Qed.

Lemma trace_run_stable k : trace_run (26 + k) = trace_run 26.
Proof.
  unfold trace_run. apply run_stable. exact trace_finished.
Qed.

(** What the code leaves in [total_response_time] at the end of the
    scenario: 2.5 for each of the five counted customers. *)
Lemma trace_total_response_time :
  total_response_time (snd (trace_run 26)) == 25 # 2.
Proof. vm_compute. reflexivity. Qed.

(** After ten events one customer has been counted. *)
Lemma trace_after_ten_events :
  length (fst (trace_run 10)) = 10%nat /\
  completed_count (snd (trace_run 10)) = 1%Z.
Proof. vm_compute. auto. Qed.

(** C1, as stated, fails: however many calls of [step] are made, the engine
    is never in a state where it has processed 10 events, counted 5
    completed customers and summed a response time of 10. *)
Lemma C1_trace_counterexample :
  ~ exists n, length (fst (trace_run n)) = 10%nat /\
              completed_count (snd (trace_run n)) = 5%Z /\
              total_response_time (snd (trace_run n)) == 10.
Proof.
  intros [n (Hl & Hc & _)].
  destruct (le_lt_dec 26 n) as [Hge|Hlt].
  - replace n with (26 + (n - 26))%nat in Hl by lia.
    rewrite trace_run_stable in Hl.
    vm_compute in Hl. discriminate.
  - do 26 (destruct n as [|n];
           [first [vm_compute in Hl; discriminate Hl
                  | vm_compute in Hc; discriminate Hc]|]).
    lia.
Qed.

(** C1 (amended): in the deterministic trace scenario the engine processes
    26 events before [step] reports the end: the 7 external arrivals of
    customers 1 to 7 at times 1 to 7, the 7 departures of customers 1 to 7
    from station 1, and the 6 departures of customers 1 to 6 from station 2
    and the 6 from station 4; customer [k] arrives at time [k] and leaves
    stations 1, 2 and 4 at [k + 0.5], [k + 1] and [k + 1.5].  The first exit
    (customer 1, at 2.5) ends the warm-up and is not counted; the exits of
    customers 2 to 6 are, and the run ends with [completed_count = 5], at the
    exit of customer 6 at 7.5, while customer 7 is still at station 2. *)
Theorem C1_trace_run :
  map event_view (fst (trace_run 26)) =
    [(1, ARRIVAL, 1%Z, St1); (3 # 2, DEPARTURE, 1%Z, St1);
     (2, ARRIVAL, 2%Z, St1); (2, DEPARTURE, 1%Z, St2);
     (5 # 2, DEPARTURE, 2%Z, St1); (5 # 2, DEPARTURE, 1%Z, St4);
     (3, ARRIVAL, 3%Z, St1); (3, DEPARTURE, 2%Z, St2);
     (7 # 2, DEPARTURE, 3%Z, St1); (7 # 2, DEPARTURE, 2%Z, St4);
     (4, ARRIVAL, 4%Z, St1); (4, DEPARTURE, 3%Z, St2);
     (9 # 2, DEPARTURE, 4%Z, St1); (9 # 2, DEPARTURE, 3%Z, St4);
     (5, ARRIVAL, 5%Z, St1); (5, DEPARTURE, 4%Z, St2);
     (11 # 2, DEPARTURE, 5%Z, St1); (11 # 2, DEPARTURE, 4%Z, St4);
     (6, ARRIVAL, 6%Z, St1); (6, DEPARTURE, 5%Z, St2);
     (13 # 2, DEPARTURE, 6%Z, St1); (13 # 2, DEPARTURE, 5%Z, St4);
     (7, ARRIVAL, 7%Z, St1); (7, DEPARTURE, 6%Z, St2);
     (15 # 2, DEPARTURE, 7%Z, St1); (15 # 2, DEPARTURE, 6%Z, St4)]
  /\ step (RS := trace_source) trace_config (snd (trace_run 26)) = Finished
  /\ (forall k, trace_run (26 + k) = trace_run 26)
  /\ is_warming_up (trace_state 5) = true
  /\ is_warming_up (trace_state 6) = false
  /\ completed_count (trace_state 6) = 0%Z
  /\ completed_count (snd (trace_run 26)) = 5%Z.
Proof.
  split; [vm_compute; reflexivity|].
  split; [unfold trace_run; exact trace_finished|].
  split; [exact trace_run_stable|].
  vm_compute. auto.
Qed.

(** ** Integration of the statistics *)

(** A step that does not end the warm-up leaves in [last_update] the clock
    it started from: the next step weighs its queues with the gap between
    the two events before it. *)
Lemma step_last_update {G : Type} {RS : RandomSource G} (cfg : Config)
    (s : State G) ev s' :
  step cfg s = Processed ev s' ->
  is_warming_up s' = is_warming_up s ->
  last_update s' = clock s.
Proof.
  intros Hstep Hw. apply step_inv in Hstep.
  destruct Hstep as (rest & Hev & _ & Hcase). cbv zeta in Hcase.
  assert (H0 : last_update (set_clock (time ev)
                 (update_accumulators (set_events rest s))) = clock s).
  { cbn [last_update set_clock]. rewrite update_accumulators_last_update.
    reflexivity. }
  destruct Hcase as [(Ht & _ & _ & ->) | [(Ht & _ & ->) | (Ht & Hd)]].
  - rewrite <- H0. unfold next_external, handle_arrival. cbn.
    repeat match goal with
           | |- context [if ?b then _ else _] => destruct b
           | |- context [let (_, _) := ?e in _] => destruct e
           end; reflexivity.
  - rewrite <- H0. unfold handle_arrival. cbn.
    repeat match goal with
           | |- context [if ?b then _ else _] => destruct b
           | |- context [let (_, _) := ?e in _] => destruct e
           end; reflexivity.
  - apply handle_departure_inv in Hd.
    destruct Hd as (c & l & r & g & Hq & Hr & Hcase). cbv zeta in Hcase.
    assert (Hn : forall q0 (st : State G),
               last_update (start_next cfg q0 st) = last_update st).
    { intros q0 st. unfold start_next. destruct (get (queues st) q0);
        [reflexivity|]. cbn. destruct (expovariate _ _). reflexivity. }
    assert (Ha : forall e (st : State G),
               last_update (handle_arrival cfg e st) = last_update st).
    { intros e st. unfold handle_arrival. cbn.
      destruct (negb _); [|reflexivity]. destruct (expovariate _ _).
      reflexivity. }
    destruct Hcase as [(Hrt & ->) | (next_q & Hrt & ->)]; rewrite Hn.
    + rewrite start_next_is_warming_up in Hw.
      rewrite <- H0. revert Hw. unfold handle_exit.
      cbn [is_warming_up set_rng set_stats set_queues set_clock].
      rewrite update_accumulators_is_warming_up. cbn [is_warming_up set_events].
      destruct (is_warming_up s) eqn:Hws; [|intros _; reflexivity].
      cbn [warmup_count set_warmup_count].
      destruct (_ <=? _)%Z; [cbn; discriminate|intros _; reflexivity].
    + rewrite Ha. exact H0.
Qed.

(** C2: in the trace scenario the warm-up has ended at time 2.5 with one
    customer in service at station 2.  The next event comes at time 3; the
    half time unit in between adds nothing to the integrals of station 2.
    The event after it comes at time 3 as well; that step adds 0.5 to the
    integrals of stations 1 and 2 for an interval of length zero. *)
Theorem C2_integration_lags :
  let s := trace_state 6 in
  let s' := trace_state 7 in
  let s'' := trace_state 8 in
  exists ev ev',
    step (RS := trace_source) trace_config s = Processed ev s' /\
    step (RS := trace_source) trace_config s' = Processed ev' s'' /\
    is_warming_up s = false /\
    time ev - clock s == 1 # 2 /\
    length (get (queues s) St2) = 1%nat /\
    get (server_busy s) St2 = true /\
    L_accum (get (stats s') St2) - L_accum (get (stats s) St2) == 0 /\
    Busy_accum (get (stats s') St2) - Busy_accum (get (stats s) St2) == 0 /\
    time ev' - clock s' == 0 /\
    length (get (queues s') St1) = 1%nat /\
    L_accum (get (stats s'') St1) - L_accum (get (stats s') St1) == 1 # 2 /\
    Busy_accum (get (stats s'') St2) - Busy_accum (get (stats s') St2) == 1 # 2.
Proof.
  cbv zeta. eexists. eexists.
  split; [vm_compute; reflexivity|].
  split; [vm_compute; reflexivity|].
  vm_compute. repeat split; congruence.
Qed.

(** ** Conservation, warm-up and the reset *)

Lemma trace_state_reachable n :
  reachable (RS := trace_source) trace_config (trace_state n).
Proof.
  unfold trace_state, trace_run. apply run_reachable.
  unfold trace_init. apply reach_reset.
Qed.

Lemma source_run_reachable n :
  reachable (RS := trace_source) source_config (snd (source_run n)).
Proof.
  unfold source_run. apply run_reachable. apply reach_reset.
Qed.

(** C3, as stated, fails: in the trace scenario, right after the exit that
    ends the warm-up, station 2 holds one customer while its two counters
    are zero. *)
Lemma C3_conservation_counterexample :
  ~ (forall s : State unit,
       reachable (RS := trace_source) trace_config s ->
       forall q,
         (Arrivals (get (stats s) q) - Departures (get (stats s) q))%Z
         = Z.of_nat (length (get (queues s) q))).
Proof.
  intros H. specialize (H (trace_state 6) (trace_state_reachable 6) St2).
  vm_compute in H. discriminate H.
Qed.

(** C3 (amended): between two calls of [step], as long as the engine is
    warming up, every station has [Arrivals - Departures] equal to the length
    of its queue; once the warm-up is over, every step leaves the difference
    between the queue length and [Arrivals - Departures] of every station
    unchanged (it is the number of customers the station held when the
    counters were reset). *)
Theorem C3_conservation {G : Type} {RS : RandomSource G} (cfg : Config)
    (s : State G) :
  reachable cfg s ->
  (is_warming_up s = true ->
   forall q,
     (Arrivals (get (stats s) q) - Departures (get (stats s) q))%Z
     = Z.of_nat (length (get (queues s) q)))
  /\ (forall ev s',
        is_warming_up s = false -> step cfg s = Processed ev s' ->
        forall q, balance s' q = balance s q).
Proof.
  intros Hs. split.
  - intros Hw q. pose proof (reachable_balance cfg s Hs Hw q) as Hb.
    unfold balance in Hb. lia.
  - intros ev s' Hw Hstep q. apply (step_balance cfg s ev s' Hstep).
    rewrite (step_stays_false cfg s ev s' Hw Hstep). symmetry. exact Hw.
Qed.

Lemma C3_conservation_witness :
  (Arrivals (get (stats (trace_state 3)) St1)
   - Departures (get (stats (trace_state 3)) St1))%Z
  = Z.of_nat (length (get (queues (trace_state 3)) St1))
  /\ balance (trace_state 7) St2 = balance (trace_state 6) St2.
Proof.
  split.
  - apply (proj1 (C3_conservation trace_config (trace_state 3)
                    (trace_state_reachable 3))).
    vm_compute. reflexivity.
  - apply (proj2 (C3_conservation trace_config (trace_state 6)
                    (trace_state_reachable 6))
             (mkEvent 3 ARRIVAL (mkCustomer 3 2) St1)).
    + vm_compute. reflexivity.
    + vm_compute. reflexivity.
Defined.

(** C5, as stated, fails: with the constants of the file, after the first
    event no customer has left yet, and station 1 has counted one arrival. *)
Lemma C5_warmup_counterexample :
  ~ (forall s : State unit,
       reachable (RS := trace_source) source_config s ->
       (warmup_count s < WARM_UP_CUSTOMERS source_config)%Z ->
       forall q, get (stats s) q = zero_stats).
Proof.
  intros H.
  specialize (H (snd (source_run 1)) (source_run_reachable 1)).
  assert (Hlt : (warmup_count (snd (source_run 1))
                 < WARM_UP_CUSTOMERS source_config)%Z)
    by (vm_compute; reflexivity).
  specialize (H Hlt St1). vm_compute in H. discriminate H.
Qed.

Lemma steps_stay_false {G : Type} {RS : RandomSource G} (cfg : Config)
    (s s' : State G) :
  steps cfg s s' -> is_warming_up s = false -> is_warming_up s' = false.
Proof.
  induction 1 as [|s ev s' s'' Hstep _ IH]; intros Hw; [assumption|].
  apply IH. eapply step_stays_false; eassumption.
Qed.

(** C6: [reset_stats_post_warmup] leaves the queues, the busy flags, the
    pending events, the clock and the customer counter as they were (and
    [warmup_count] and the random source with them); what it changes is the
    statistics, [completed_count], [total_response_time], [last_update],
    [is_warming_up] and [steady_start_time]. *)
Theorem C6_reset_frame {G : Type} (s : State G) :
  let s' := reset_stats_post_warmup s in
  queues s' = queues s /\
  server_busy s' = server_busy s /\
  events s' = events s /\
  clock s' = clock s /\
  cust_counter s' = cust_counter s /\
  warmup_count s' = warmup_count s /\
  rng s' = rng s /\
  stats_zero s' /\
  completed_count s' = 0%Z /\
  total_response_time s' = 0 /\
  last_update s' = clock s /\
  is_warming_up s' = false /\
  steady_start_time s' = clock s.
Proof.
  cbv zeta. unfold reset_stats_post_warmup, stats_zero. cbn.
  repeat split; try reflexivity. intros q. destruct q; reflexivity.
Qed.

(** ** The arrival time of a customer *)

(** C4: in the trace scenario the seed customer carries [arrival_time] 0
    while its [ARRIVAL] is processed at time 1, and customer 2 carries
    [arrival_time] 1 while its [ARRIVAL] is processed at time 2: the field
    holds the clock at which the arrival was scheduled.  Customer 2, in the
    network from 2 to 3.5, adds 2.5 to [total_response_time]. *)
Theorem C4_arrival_time_lags :
  (exists e, events trace_init = [e] /\ type e = ARRIVAL /\
             id (customer e) = 1%Z /\
             time e == 1 /\ arrival_time (customer e) == 0)
  /\ (exists e, arrs (events (trace_state 1)) = [e] /\
                id (customer e) = 2%Z /\
                time e == 2 /\ arrival_time (customer e) == 1)
  /\ map event_view (fst (trace_run 10)) =
       [(1, ARRIVAL, 1%Z, St1); (3 # 2, DEPARTURE, 1%Z, St1);
        (2, ARRIVAL, 2%Z, St1); (2, DEPARTURE, 1%Z, St2);
        (5 # 2, DEPARTURE, 2%Z, St1); (5 # 2, DEPARTURE, 1%Z, St4);
        (3, ARRIVAL, 3%Z, St1); (3, DEPARTURE, 2%Z, St2);
        (7 # 2, DEPARTURE, 3%Z, St1); (7 # 2, DEPARTURE, 2%Z, St4)]
  /\ completed_count (trace_state 10) = 1%Z
  /\ total_response_time (trace_state 10) == 5 # 2.
Proof.
  split; [eexists; vm_compute; repeat split; reflexivity|].
  split; [eexists; vm_compute; repeat split; reflexivity|].
  vm_compute. repeat split; reflexivity.
Qed.

(** The customer of every scheduled external arrival carries the clock of
    the moment it is scheduled, and the arrival comes one draw later. *)
Lemma next_external_arrival_time {G : Type} {RS : RandomSource G}
    (cfg : Config) (s : State G) :
  exists e, In e (events (next_external cfg s)) /\
            id (customer e) = (cust_counter s + 1)%Z /\
            arrival_time (customer e) = clock s /\
            time e = clock s + fst (expovariate (LAMBDA_SOURCE_RATE cfg) (rng s)).
Proof.
  eexists. split.
  - rewrite next_external_events. apply in_sort.
    apply in_or_app. right. left. reflexivity.
  - simpl. auto.
Qed.

(** ** Busy servers and pending departures *)

(** C7: in every reachable state, for every station, the server is busy
    exactly when the queue is not empty and a [DEPARTURE] of its head customer
    from this station is pending; at most one [DEPARTURE] of the station is
    pending. *)
Theorem C7_busy_iff_departure_pending {G : Type} {RS : RandomSource G}
    (cfg : Config) (s : State G) :
  reachable cfg s ->
  forall q,
    (get (server_busy s) q = true <->
     exists c rest, get (queues s) q = c :: rest /\
                    departure_pending q c (events s))
    /\ (length (deps q (events s)) <= 1)%nat.
Proof.
  intros Hs q. pose proof (reachable_station_ok cfg s Hs q) as Hok.
  split; [|apply station_ok_short; assumption].
  unfold station_ok in Hok. destruct (get (server_busy s) q).
  - split; [intros _|reflexivity].
    destruct Hok as (c & rest & e & Hq & Hd & Hc).
    exists c, rest. split; [assumption|]. exists e.
    assert (Hin : In e (deps q (events s))) by (rewrite Hd; left; reflexivity).
    unfold deps in Hin. apply filter_In in Hin. destruct Hin as [Hin Hp].
    apply andb_true_iff in Hp. destruct Hp as [Hp1 Hp2].
    apply station_eqb_eq in Hp2. unfold is_departure in Hp1.
    destruct (type e); [discriminate|]. auto.
  - destruct Hok as [Hq _]. split; [discriminate|].
    intros (c & rest & Hq' & _). congruence.
Qed.

Lemma C7_busy_iff_departure_pending_witness :
  (get (server_busy (trace_state 7)) St2 = true <->
   exists c rest, get (queues (trace_state 7)) St2 = c :: rest /\
                  departure_pending St2 c (events (trace_state 7)))
  /\ (length (deps St2 (events (trace_state 7))) <= 1)%nat.
Proof.
  apply (C7_busy_iff_departure_pending (RS := trace_source) trace_config
           (trace_state 7)).
  apply trace_state_reachable.
Defined.

(** ** The clock *)

Lemma trace_draws_nonneg :
  forall rate (g : unit), 0 <= fst (expovariate (RandomSource := trace_source) rate g).
Proof.
  intros rate g. simpl. destruct (Qeq_bool rate 4); discriminate.
Qed.

(** C8: when every interarrival and service draw is non-negative, a step
    from a reachable state processes an event whose time is not before the
    clock and leaves the clock at that time; so the clock never decreases
    along any sequence of steps. *)
Theorem C8_clock_nondecreasing {G : Type} {RS : RandomSource G}
    (cfg : Config) (s : State G) :
  (forall rate (g : G), 0 <= fst (expovariate rate g)) ->
  reachable cfg s ->
  (forall ev s', step cfg s = Processed ev s' ->
                 clock s <= time ev /\ clock s' = time ev)
  /\ (forall s', steps cfg s s' -> clock s <= clock s').
Proof.
  intros Hdraw Hs.
  assert (Hone : forall (s0 : State G) ev s',
            reachable cfg s0 -> step cfg s0 = Processed ev s' ->
            clock s0 <= time ev /\ clock s' = time ev).
  { intros s0 ev s' Hs0 Hstep. split; [|eapply step_clock; eassumption].
    pose proof (reachable_fel_ok cfg Hdraw s0 Hs0) as Hok.
    pose proof Hstep as Hinv. apply step_inv in Hinv.
    destruct Hinv as (rest & Hev & _).
    apply (pop_fel_ok s0 ev rest Hev Hok). }
  split; [intros ev s'; apply Hone; assumption|].
  intros s' Hsteps. revert Hs.
  induction Hsteps as [|s ev s' s'' Hstep _ IH]; intros Hs.
  - apply Qle_refl.
  - destruct (Hone s ev s' Hs Hstep) as [Hle Heq].
    apply Qle_trans with (y := clock s'); [rewrite Heq; assumption|].
    apply IH. eapply reach_step; eassumption.
Qed.

Lemma C8_clock_nondecreasing_witness :
  clock (trace_state 6) <= 3 /\ clock (trace_state 7) = 3.
Proof.
  apply (proj1 (C8_clock_nondecreasing trace_config (trace_state 6)
                  trace_draws_nonneg (trace_state_reachable 6))
           (mkEvent 3 ARRIVAL (mkCustomer 3 2) St1) (trace_state 7)).
  vm_compute. reflexivity.
Defined.

(** ** The pending external arrival *)

(** C10: in every reachable state exactly one [ARRIVAL] is pending; it is
    at station 1 and its customer carries the number [cust_counter].  So the
    list of events is not empty, [step] reports the end only when
    [completed_count] has reached [MAX_COMPLETED], and it does not raise. *)
Theorem C10_external_arrival_pending {G : Type} {RS : RandomSource G}
    (cfg : Config) (s : State G) :
  reachable cfg s ->
  (exists e, arrs (events s) = [e] /\ In e (events s) /\ type e = ARRIVAL /\
             queue_id e = St1 /\ id (customer e) = cust_counter s)
  /\ events s <> []
  /\ (step cfg s = Finished -> (MAX_COMPLETED cfg <= completed_count s)%Z)
  /\ step cfg s <> Raised.
Proof.
  intros Hs. destruct (reachable_source_ok cfg s Hs) as (e & Ha & Hq & Hid).
  assert (Hin : In e (events s) /\ type e = ARRIVAL).
  { assert (H : In e (arrs (events s))) by (rewrite Ha; left; reflexivity).
    unfold arrs in H. apply filter_In in H. destruct H as [H1 H2].
    unfold is_arrival in H2. destruct (type e); [auto|discriminate]. }
  destruct Hin as [Hin Ht].
  assert (Hne : events s <> []).
  { intros E. rewrite E in Hin. contradiction. }
  split; [exists e; auto|]. split; [assumption|]. split.
  - unfold step. destruct (events s) as [|ev rest]; [congruence|].
    destruct (MAX_COMPLETED cfg <=? completed_count s)%Z eqn:Hm.
    + intros _. apply Z.leb_le. assumption.
    + destruct (type ev).
      * destruct (_ && _); discriminate.
      * destruct (handle_departure _ _ _); discriminate.
  - apply step_no_raise. apply (reachable_station_ok cfg). assumption.
Qed.

Lemma C10_external_arrival_pending_witness :
  (exists e, arrs (events (trace_state 7)) = [e] /\
             In e (events (trace_state 7)) /\ type e = ARRIVAL /\
             queue_id e = St1 /\
             id (customer e) = cust_counter (trace_state 7))
  /\ events (trace_state 7) <> []
  /\ (step (RS := trace_source) trace_config (trace_state 7) = Finished ->
      (MAX_COMPLETED trace_config <= completed_count (trace_state 7))%Z)
  /\ step (RS := trace_source) trace_config (trace_state 7) <> Raised.
Proof.
  apply (C10_external_arrival_pending (RS := trace_source) trace_config
           (trace_state 7)).
  apply trace_state_reachable.
Defined.

(** ** The analytical model at an overloaded station *)

Section Unstable.

Import Analytical.

Lemma div_some a b : ~ b == 0 -> div a b = Some (a / b).
Proof.
  unfold div. intros H. destruct (Qeq_bool b 0) eqn:E; [|reflexivity].
  apply Qeq_bool_iff in E. contradiction.
Qed.

Lemma div_none a b : b == 0 -> div a b = None.
Proof.
  unfold div. intros H. apply Qeq_bool_iff in H. rewrite H. reflexivity.
Qed.

(** A load above 1 at a station with a positive service rate means more
    arrivals than services. *)
Lemma overload_rates l m : 0 < m -> 1 < l / m -> m < l.
Proof.
  intros Hm Hrho.
  assert (Hne : ~ m == 0) by (intros E; rewrite E in Hm; discriminate Hm).
  assert (H : 1 * m < (l / m) * m) by (apply Qmult_lt_compat_r; assumption).
  assert (E : (l / m) * m == l) by (field; assumption).
  rewrite E, Qmult_1_l in H. exact H.
Qed.

(** C9, as stated, fails: at arrival rate 6 and service rate 5 (load 6/5)
    the station loop returns its values, [L = -6] and [W = -1] among them, and
    with the source rate 6 the whole analytical computation returns. *)
Lemma C9_overload_counterexample :
  (exists r, station_metrics 6 5 = Some r /\ 1 <= Rho r /\
             L r == - (6) /\ W r == - (1))
  /\ (exists r, analytical overloaded_config = Some r /\
                1 <= Rho (get (fst (fst r)) St1)).
Proof.
  split; eexists; (split; [vm_compute; reflexivity|]);
    vm_compute; repeat split; congruence.
Qed.

(** C9 (amended): at a station with service rate [m > 0] and load
    [l / m > 1] the analytical computation reports no error: it returns the
    values of the closed formulas, of which [L] and [W] are negative.  Only a
    load of exactly 1 makes it fail, with a division by zero. *)
Theorem C9_unstable_station (l m : Q) :
  0 < m ->
  (1 < l / m ->
   exists r, station_metrics l m = Some r /\
             Rho r = l / m /\
             L r = (l / m) / (1 - l / m) /\
             Lq r = L r - Rho r /\
             W r = 1 / (m - l) /\
             Wq r = W r - 1 / m /\
             L r < 0 /\ W r < 0)
  /\ (l / m == 1 -> station_metrics l m = None).
Proof.
  intros Hm.
  assert (Hne : ~ m == 0) by (intros E; rewrite E in Hm; discriminate Hm).
  split.
  - intros Hrho. pose proof (overload_rates l m Hm Hrho) as Hlm.
    assert (H1 : ~ 1 - l / m == 0).
    { set (rho := l / m) in *. intros E. lra. }
    assert (H2 : ~ m - l == 0) by (intros E; lra).
    unfold station_metrics, bind.
    rewrite (div_some l m Hne), (div_some _ _ H1), (div_some _ _ H2),
      (div_some 1 m Hne).
    eexists. split; [reflexivity|]. cbn [Rho L Lq W Wq].
    repeat (split; [reflexivity|]). split.
    + set (rho := l / m) in *.
      assert (Hpos : 0 < rho / (rho - 1)).
      { apply Qlt_shift_div_l; lra. }
      assert (E : rho / (1 - rho) == - (rho / (rho - 1))).
      { field. split; intros E; lra. }
      rewrite E. lra.
    + assert (Hpos : 0 < 1 / (l - m)).
      { apply Qlt_shift_div_l; lra. }
      assert (E : 1 / (m - l) == - (1 / (l - m))).
      { field. split; intros E; lra. }
      rewrite E. lra.
  - intros Hrho. unfold station_metrics, bind.
    rewrite (div_some l m Hne).
    rewrite div_none; [reflexivity|]. rewrite Hrho. reflexivity.
Qed.

Lemma C9_unstable_station_witness :
  (exists r, station_metrics 6 5 = Some r /\
             Rho r = 6 / 5 /\
             L r = (6 / 5) / (1 - 6 / 5) /\
             Lq r = L r - Rho r /\
             W r = 1 / (5 - 6) /\
             Wq r = W r - 1 / 5 /\
             L r < 0 /\ W r < 0)
  /\ station_metrics 5 5 = None.
Proof.
  split.
  - apply (proj1 (C9_unstable_station 6 5 eq_refl)). reflexivity.
  - apply (proj2 (C9_unstable_station 5 5 eq_refl)). reflexivity.
Defined.

End Unstable.

(** * Further properties of the engine *)

(** ** The list of pending events *)

Lemma insert_perm x l : Permutation (insert x l) (x :: l).
Proof.
  induction l as [|y l IH]; simpl; [reflexivity|].
  destruct (Event_lt y x); [|reflexivity].
  rewrite IH. apply perm_swap.
Qed.

Lemma sort_perm l : Permutation (sort l) l.
Proof.
  induction l as [|y l IH]; simpl; [reflexivity|].
  rewrite insert_perm, IH. reflexivity.
Qed.

(** X1: whatever list it starts from, [schedule] leaves the pending events
    in time order, and they are the events that were pending plus the new
    one, each as often as before. *)
Theorem schedule_sorted_perm {G : Type} (ev : Event) (s : State G) :
  time_sorted (events (schedule ev s)) /\
  Permutation (events (schedule ev s)) (ev :: events s).
Proof.
  unfold schedule. simpl. split; [apply sort_sorted|].
  rewrite sort_perm. symmetry. apply Permutation_cons_append.
Qed.

(** X2: on a list in time order [schedule] puts the new event behind every
    pending event that is not later, those of equal time included, and in
    front of every later one; the pending events keep their order. *)
Theorem schedule_ties_fifo {G : Type} (ev : Event) (s : State G) :
  time_sorted (events s) ->
  events (schedule ev s)
  = filter (fun e => Qle_bool (time e) (time ev)) (events s)
    ++ ev :: filter (fun e => Qlt_bool (time ev) (time e)) (events s).
Proof.
  unfold schedule. simpl. generalize (events s). clear s. intros l.
  induction l as [|y l IH]; intros Hs; [reflexivity|].
  inversion Hs as [|? ? Hl Hy]; subst.
  simpl. rewrite (IH Hl). unfold Qlt_bool at 2.
  destruct (Qle_bool (time y) (time ev)) eqn:Hle; simpl.
  - apply insert_front. apply Forall_app. split.
    + apply Forall_forall. intros z Hz. apply filter_In in Hz.
      rewrite Forall_forall in Hy. apply Hy. tauto.
    + constructor; [apply Qle_bool_iff; assumption|].
      apply Forall_forall. intros z Hz. apply filter_In in Hz.
      rewrite Forall_forall in Hy. apply Hy. tauto.
  - assert (Hlt : time ev < time y).
    { apply Qlt_bool_iff. unfold Qlt_bool. rewrite Hle. reflexivity. }
    assert (Hnone : filter (fun e => Qle_bool (time e) (time ev)) l = []).
    { clear IH Hs Hl. induction l as [|z l IHl]; [reflexivity|].
      inversion Hy; subst. simpl.
      destruct (Qle_bool (time z) (time ev)) eqn:Hz; [|auto].
      apply Qle_bool_iff in Hz. exfalso.
      apply (Qlt_irrefl (time ev)).
      eapply Qlt_le_trans; [exact Hlt|]. eapply Qle_trans; eassumption. }
    assert (Hall : filter (fun e => Qlt_bool (time ev) (time e)) l = l).
    { clear IH Hs Hl Hnone. induction l as [|z l IHl]; [reflexivity|].
      inversion Hy; subst. simpl.
      replace (Qlt_bool (time ev) (time z)) with true; [f_equal; auto|].
      symmetry. apply Qlt_bool_iff. eapply Qlt_le_trans; eassumption. }
    rewrite Hnone, Hall. simpl.
    replace (Event_lt ev y) with true
      by (symmetry; apply Qlt_bool_iff; assumption).
    f_equal. apply insert_front. assumption.
Qed.

Lemma schedule_ties_fifo_witness :
  map event_view (events (schedule (mkEvent 2 DEPARTURE (mkCustomer 9 0) St3)
                            (trace_state 1)))
  = [(3 # 2, DEPARTURE, 1%Z, St1); (2, ARRIVAL, 2%Z, St1);
     (2, DEPARTURE, 9%Z, St3)].
Proof.
  rewrite (schedule_ties_fifo (mkEvent 2 DEPARTURE (mkCustomer 9 0) St3)
             (trace_state 1)).
  - vm_compute. reflexivity.
  - vm_compute. repeat constructor; discriminate.
Defined.

Section PendingOrder.

Context {G : Type} {RS : RandomSource G}.
Variable cfg : Config.

Lemma handle_arrival_sorted ev (s : State G) :
  time_sorted (events s) -> time_sorted (events (handle_arrival cfg ev s)).
Proof.
  intros Hs. rewrite handle_arrival_events.
  destruct (get (server_busy s) (queue_id ev)); [assumption|apply sort_sorted].
Qed.

Lemma start_next_sorted q (s : State G) :
  time_sorted (events s) -> time_sorted (events (start_next cfg q s)).
Proof.
  intros Hs. unfold start_next. destruct (get (queues s) q); [assumption|].
  simpl. destruct (expovariate _ _). simpl. apply sort_sorted.
Qed.

Lemma step_sorted (s : State G) ev s' :
  time_sorted (events s) -> step cfg s = Processed ev s' ->
  time_sorted (events s').
Proof.
  intros Hs Hstep. apply step_inv in Hstep.
  destruct Hstep as (rest & Hev & _ & Hcase). cbv zeta in Hcase.
  assert (Hrest : time_sorted (events (set_clock (time ev)
                    (update_accumulators (set_events rest s))))).
  { simpl. rewrite update_accumulators_events. simpl.
    rewrite Hev in Hs. inversion Hs; assumption. }
  destruct Hcase as [(Ht & _ & _ & ->) | [(Ht & _ & ->) | (Ht & Hd)]].
  - rewrite next_external_events. apply sort_sorted.
  - apply handle_arrival_sorted. assumption.
  - apply handle_departure_inv in Hd.
    destruct Hd as (c & l & r & g & Hq & Hr & Hcase). cbv zeta in Hcase.
    destruct Hcase as [(Hrt & ->) | (next_q & Hrt & ->)];
      apply start_next_sorted.
    + rewrite handle_exit_events. exact Hrest.
    + apply handle_arrival_sorted. exact Hrest.
Qed.

Lemma reachable_sorted (s : State G) :
  reachable cfg s -> time_sorted (events s).
Proof.
  induction 1 as [g|s ev s' _ IH Hstep].
  - unfold reset. destruct (expovariate _ _). simpl. repeat constructor.
  - eapply step_sorted; eassumption.
Qed.

End PendingOrder.

(** X3: whatever the random draws are, the pending events of a reachable
    state are in time order, and the event a step processes is an earliest
    one: no pending event has a smaller time. *)
Theorem step_takes_earliest {G : Type} {RS : RandomSource G} (cfg : Config)
    (s : State G) :
  reachable cfg s ->
  time_sorted (events s) /\
  forall ev s', step cfg s = Processed ev s' ->
                forall e, In e (events s) -> time ev <= time e.
Proof.
  intros Hs. pose proof (reachable_sorted cfg s Hs) as Hsorted.
  split; [assumption|].
  intros ev s' Hstep e Hin. apply step_inv in Hstep.
  destruct Hstep as (rest & Hev & _). rewrite Hev in *.
  inversion Hsorted as [|? ? _ Hall]; subst.
  destruct Hin as [<-|Hin]; [apply Qle_refl|].
  rewrite Forall_forall in Hall. auto.
Qed.

Lemma step_takes_earliest_witness :
  time_sorted (events (trace_state 4)) /\
  time (nth 0 (events (trace_state 4)) (mkEvent 0 ARRIVAL (mkCustomer 0 0) St1))
  <= time (nth 2 (events (trace_state 4)) (mkEvent 0 ARRIVAL (mkCustomer 0 0) St1)).
Proof.
  destruct (step_takes_earliest trace_config (trace_state 4)
              (trace_state_reachable 4)) as [Hsorted Hmin].
  split; [exact Hsorted|].
  apply (Hmin _ (trace_state 5)).
  - vm_compute. reflexivity.
  - vm_compute. right. right. left. reflexivity.
Defined.

(** ** Counting customers *)

Section Counting.

Context {G : Type} {RS : RandomSource G}.
Variable cfg : Config.

Lemma next_external_completed_count (s : State G) :
  completed_count (next_external cfg s) = completed_count s.
Proof. unfold next_external. simpl. destruct (expovariate _ _). reflexivity. Qed.

(** What an exit does to the two counters of customers that left. *)
Lemma handle_exit_counts c (s : State G) :
  (is_warming_up s = true /\
   warmup_count (handle_exit cfg c s) = (warmup_count s + 1)%Z /\
   ((is_warming_up (handle_exit cfg c s) = true /\
     (warmup_count s + 1 < WARM_UP_CUSTOMERS cfg)%Z /\
     completed_count (handle_exit cfg c s) = completed_count s)
    \/ (is_warming_up (handle_exit cfg c s) = false /\
        (WARM_UP_CUSTOMERS cfg <= warmup_count s + 1)%Z /\
        completed_count (handle_exit cfg c s) = 0%Z)))
  \/ (is_warming_up s = false /\
      is_warming_up (handle_exit cfg c s) = false /\
      warmup_count (handle_exit cfg c s) = warmup_count s /\
      completed_count (handle_exit cfg c s) = (completed_count s + 1)%Z).
Proof.
  unfold handle_exit. destruct (is_warming_up s) eqn:Hw.
  - left. split; [reflexivity|]. cbn [warmup_count set_warmup_count].
    destruct (WARM_UP_CUSTOMERS cfg <=? warmup_count s + 1)%Z eqn:Ht.
    + apply Z.leb_le in Ht. split; [reflexivity|]. right. auto.
    + apply Z.leb_gt in Ht. split; [reflexivity|]. left. auto.
  - right. simpl. auto.
Qed.

(** What a step does to the warm-up flag and to the counters
    [warmup_count] and [completed_count]: an arrival, or a departure that
    moves its customer on, leaves them alone; an exit is counted once. *)
Lemma step_counts (s : State G) ev s' :
  step cfg s = Processed ev s' ->
  (completed_count s < MAX_COMPLETED cfg)%Z /\
  ((is_warming_up s' = is_warming_up s /\ warmup_count s' = warmup_count s /\
    completed_count s' = completed_count s)
   \/ (type ev = DEPARTURE /\ is_warming_up s = true /\
       warmup_count s' = (warmup_count s + 1)%Z /\
       ((is_warming_up s' = true /\
         (warmup_count s + 1 < WARM_UP_CUSTOMERS cfg)%Z /\
         completed_count s' = completed_count s)
        \/ (is_warming_up s' = false /\
            (WARM_UP_CUSTOMERS cfg <= warmup_count s + 1)%Z /\
            completed_count s' = 0%Z)))
   \/ (type ev = DEPARTURE /\ is_warming_up s = false /\
       is_warming_up s' = false /\ warmup_count s' = warmup_count s /\
       completed_count s' = (completed_count s + 1)%Z)).
Proof.
  intros Hstep. apply step_inv in Hstep.
  destruct Hstep as (rest & Hev & Hmax & Hcase). cbv zeta in Hcase.
  split; [assumption|].
  destruct Hcase as [(Ht & _ & _ & ->) | [(Ht & _ & ->) | (Ht & Hd)]].
  - left. rewrite next_external_is_warming_up, next_external_warmup_count,
      next_external_completed_count, handle_arrival_is_warming_up,
      handle_arrival_warmup_count, handle_arrival_completed_count. simpl.
    rewrite update_accumulators_is_warming_up, update_accumulators_warmup_count,
      update_accumulators_completed_count. auto.
  - left. rewrite handle_arrival_is_warming_up,
      handle_arrival_warmup_count, handle_arrival_completed_count. simpl.
    rewrite update_accumulators_is_warming_up, update_accumulators_warmup_count,
      update_accumulators_completed_count. auto.
  - apply handle_departure_inv in Hd.
    destruct Hd as (c & l & r & g & Hq & Hr & Hcase). cbv zeta in Hcase.
    destruct Hcase as [(Hrt & ->) | (next_q & Hrt & ->)];
      rewrite start_next_is_warming_up, start_next_warmup_count,
        start_next_completed_count.
    + match goal with
      | |- context [handle_exit cfg c ?st] =>
          pose proof (handle_exit_counts c st) as Hx
      end.
      simpl in Hx. rewrite update_accumulators_is_warming_up,
        update_accumulators_warmup_count,
        update_accumulators_completed_count in Hx. simpl in Hx.
      destruct Hx as [(Hw & Hc & Hx) | (Hw & Hw' & Hc & Hcc)].
      * right. left. auto.
      * right. right. auto.
    + left. rewrite handle_arrival_is_warming_up,
        handle_arrival_warmup_count, handle_arrival_completed_count. simpl.
      rewrite update_accumulators_is_warming_up,
        update_accumulators_warmup_count,
        update_accumulators_completed_count. auto.
Qed.

Lemma reachable_completed_bounds (s : State G) :
  reachable cfg s ->
  (0 <= completed_count s <= Z.max 0 (MAX_COMPLETED cfg))%Z.
Proof.
  induction 1 as [g|s ev s' _ IH Hstep].
  - unfold reset. destruct (expovariate _ _). simpl. lia.
  - apply step_counts in Hstep. destruct Hstep as [Hmax Hcase].
    destruct Hcase as [(_ & _ & ->) | [(_ & _ & _ & [(_ & _ & ->)|(_ & _ & ->)])
                                      | (_ & _ & _ & _ & ->)]]; lia.
Qed.

Lemma reachable_discard_ok (s : State G) :
  reachable cfg s -> discard_ok cfg s.
Proof.
  induction 1 as [g|s ev s' _ IH Hstep].
  - unfold reset, discard_ok. destruct (expovariate _ _). simpl. lia.
  - apply step_counts in Hstep. destruct Hstep as [_ Hcase].
    unfold discard_ok in *.
    destruct Hcase as [(-> & -> & _)
                      | [(_ & Hw & -> & [(-> & Hlt & _)|(-> & Hge & _)])
                        | (_ & Hw & -> & -> & _)]];
      try assumption; rewrite Hw in IH; try lia; assumption.
Qed.

End Counting.

(** C5 (amended): in every reachable state whose [warmup_count] is below
    the threshold the engine is still warming up, and in every state in which
    it is warming up the three time integrals [L_accum], [Q_accum],
    [Busy_accum] of every station are exactly zero, whatever time has passed
    ([Arrivals] and [Departures] are counted during the warm-up).  The step
    that brings [warmup_count] from below the threshold to the threshold ends
    the warm-up: in the state right after it every accumulator and counter is
    zero, [steady_start_time] is the clock and [is_warming_up] is false.  A
    step from a warming-up state ends the warm-up exactly when it counts an
    exit and [warmup_count] is then at or above the threshold, and with the
    same zeroed state.  From a state where [is_warming_up] is false it stays
    false. *)
Theorem C5_warmup_isolation {G : Type} {RS : RandomSource G} (cfg : Config)
    (s : State G) :
  reachable cfg s ->
  ((warmup_count s < WARM_UP_CUSTOMERS cfg)%Z -> is_warming_up s = true)
  /\ (is_warming_up s = true \/ (warmup_count s < WARM_UP_CUSTOMERS cfg)%Z ->
      forall q, L_accum (get (stats s) q) = 0 /\
                Q_accum (get (stats s) q) = 0 /\
                Busy_accum (get (stats s) q) = 0)
  /\ (forall ev s',
        step cfg s = Processed ev s' ->
        (warmup_count s < WARM_UP_CUSTOMERS cfg <= warmup_count s')%Z ->
        is_warming_up s' = false /\
        (forall q, get (stats s') q = zero_stats) /\
        steady_start_time s' = clock s')
  /\ (forall ev s',
        step cfg s = Processed ev s' -> is_warming_up s = true ->
        (is_warming_up s' = false <->
         warmup_count s' = (warmup_count s + 1)%Z /\
         (WARM_UP_CUSTOMERS cfg <= warmup_count s')%Z))
  /\ (forall ev s',
        step cfg s = Processed ev s' ->
        is_warming_up s = true -> is_warming_up s' = false ->
        (forall q, get (stats s') q = zero_stats) /\
        steady_start_time s' = clock s')
  /\ (forall s', steps cfg s s' ->
        is_warming_up s = false -> is_warming_up s' = false).
Proof.
  intros Hs. destruct (reachable_warmup_ok cfg s Hs) as [Hz Hc].
  assert (Hbelow : (warmup_count s < WARM_UP_CUSTOMERS cfg)%Z ->
                   is_warming_up s = true).
  { intros Hlt. destruct (is_warming_up s); [reflexivity|].
    specialize (Hc eq_refl). lia. }
  assert (Hiff : forall ev s',
             step cfg s = Processed ev s' -> is_warming_up s = true ->
             (is_warming_up s' = false <->
              warmup_count s' = (warmup_count s + 1)%Z /\
              (WARM_UP_CUSTOMERS cfg <= warmup_count s')%Z)).
  { intros ev s' Hstep Hw.
    destruct (step_counts cfg s ev s' Hstep) as [_ Hcase].
    destruct Hcase as [(Hw' & Hcnt & _)
                      | [(_ & _ & Hcnt & [(Hw' & Hlt & _)|(Hw' & Hge & _)])
                        | (_ & Hwf & _)]].
    - rewrite Hw', Hw, Hcnt. split; [discriminate|]. intros [H _]. lia.
    - rewrite Hw', Hcnt. split; [discriminate|]. intros [_ H]. lia.
    - rewrite Hw', Hcnt. split; [intros _; split; [reflexivity|assumption]
                               |reflexivity].
    - congruence. }
  split; [exact Hbelow|]. split; [|split; [|split; [|split]]].
  - intros Hw q.
    assert (Hw' : is_warming_up s = true)
      by (destruct Hw as [Hw|Hw]; auto).
    specialize (Hz Hw' q). unfold integrals in Hz.
    injection Hz as HL HQ HB. auto.
  - intros ev s' Hstep [Hlt Hge].
    pose proof (Hbelow Hlt) as Hw.
    assert (Hw' : is_warming_up s' = false).
    { apply (Hiff ev s' Hstep Hw). split; [|assumption].
      destruct (step_counts cfg s ev s' Hstep) as [_ Hcase].
      destruct Hcase as [(_ & Hcnt & _) | [(_ & _ & Hcnt & _) | (_ & Hwf & _)]];
        [lia | assumption | congruence]. }
    split; [assumption|].
    apply (step_flip cfg s ev s' Hw Hstep Hw').
  - exact Hiff.
  - intros ev s' Hstep Hw Hw'.
    apply (step_flip cfg s ev s' Hw Hstep Hw').
  - intros s' Hsteps Hw. eapply steps_stay_false; eassumption.
Qed.

Lemma warmup2_state_reachable n :
  reachable (RS := trace_source) warmup2_config (warmup2_state n).
Proof.
  unfold warmup2_state. apply run_reachable. apply reach_reset.
Qed.

Lemma C5_warmup_isolation_witness :
  is_warming_up (warmup2_state 9) = true
  /\ (L_accum (get (stats (warmup2_state 9)) St1) = 0 /\
      Q_accum (get (stats (warmup2_state 9)) St1) = 0 /\
      Busy_accum (get (stats (warmup2_state 9)) St1) = 0)
  /\ (is_warming_up (warmup2_state 10) = false /\
      get (stats (warmup2_state 10)) St4 = zero_stats /\
      steady_start_time (warmup2_state 10) = clock (warmup2_state 10)).
Proof.
  destruct (C5_warmup_isolation warmup2_config (warmup2_state 9)
              (warmup2_state_reachable 9)) as (H1 & H2 & H3 & _).
  assert (Hlt : (warmup_count (warmup2_state 9)
                 < WARM_UP_CUSTOMERS warmup2_config)%Z)
    by (vm_compute; reflexivity).
  split; [exact (H1 Hlt)|]. split; [exact (H2 (or_intror Hlt) St1)|].
  assert (Hstep : step (RS := trace_source) warmup2_config (warmup2_state 9)
                  = Processed
                      (nth 0 (events (warmup2_state 9))
                         (mkEvent 0 ARRIVAL (mkCustomer 0 0) St1))
                      (warmup2_state 10))
    by (vm_compute; reflexivity).
  assert (Hreach : (warmup_count (warmup2_state 9)
                    < WARM_UP_CUSTOMERS warmup2_config
                    <= warmup_count (warmup2_state 10))%Z)
    by (vm_compute; split; [reflexivity|discriminate]).
  destruct (H3 _ _ Hstep Hreach) as (Hf & Hzero & Hst).
  split; [exact Hf|]. split; [exact (Hzero St4)|exact Hst].
Defined.

(** X4: in every reachable state [completed_count] lies between 0 and
    [MAX_COMPLETED] (between 0 and 0 when the target is negative): the engine
    never counts more customers than the target. *)
Theorem completed_count_bounded {G : Type} {RS : RandomSource G}
    (cfg : Config) (s : State G) :
  reachable cfg s ->
  (0 <= completed_count s <= Z.max 0 (MAX_COMPLETED cfg))%Z.
Proof. apply reachable_completed_bounds. Qed.

Lemma completed_count_bounded_witness :
  (0 <= completed_count (trace_state 26)
   <= Z.max 0 (MAX_COMPLETED trace_config))%Z.
Proof.
  apply (completed_count_bounded (RS := trace_source) trace_config
           (trace_state 26)).
  apply trace_state_reachable.
Defined.

(** X5: the warm-up discards [max(1, WARM_UP_CUSTOMERS)] exits: while the
    engine warms up [warmup_count] is below that number, and from the end of
    the warm-up on it equals it.  A threshold of 0 (or below) still discards
    the first customer that leaves. *)
Theorem warmup_discards {G : Type} {RS : RandomSource G}
    (cfg : Config) (s : State G) :
  reachable cfg s ->
  (is_warming_up s = true ->
   (0 <= warmup_count s < Z.max 1 (WARM_UP_CUSTOMERS cfg))%Z)
  /\ (is_warming_up s = false ->
      warmup_count s = Z.max 1 (WARM_UP_CUSTOMERS cfg)).
Proof.
  intros Hs. pose proof (reachable_discard_ok cfg s Hs) as H.
  unfold discard_ok in H. destruct (is_warming_up s); split; intros Hw;
    first [discriminate | assumption].
Qed.

Lemma warmup_discards_witness :
  (0 <= warmup_count (trace_state 5)
   < Z.max 1 (WARM_UP_CUSTOMERS trace_config))%Z
  /\ warmup_count (trace_state 6) = Z.max 1 (WARM_UP_CUSTOMERS trace_config).
Proof.
  split.
  - apply (proj1 (warmup_discards trace_config (trace_state 5)
                    (trace_state_reachable 5))).
    vm_compute. reflexivity.
  - apply (proj2 (warmup_discards trace_config (trace_state 6)
                    (trace_state_reachable 6))).
    vm_compute. reflexivity.
Defined.

(** ** The census of the network *)

Section Census.

Context {G : Type} {RS : RandomSource G}.
Variable cfg : Config.

Lemma total_n_sys_upd (s s' : State G) q l :
  queues s' = upd (queues s) q l ->
  Report.total_n_sys s'
  = (Report.total_n_sys s - Z.of_nat (length (get (queues s) q))
     + Z.of_nat (length l))%Z.
Proof.
  intros Hq. unfold Report.total_n_sys, range_1_5. cbn [fold_left].
  rewrite Hq. destruct q; cbn [get upd at1 at2 at3 at4]; lia.
Qed.

Lemma total_n_sys_same (s s' : State G) :
  queues s' = queues s -> Report.total_n_sys s' = Report.total_n_sys s.
Proof. unfold Report.total_n_sys. intros ->. reflexivity. Qed.

Lemma handle_arrival_total ev (s : State G) :
  Report.total_n_sys (handle_arrival cfg ev s)
  = (Report.total_n_sys s + 1)%Z.
Proof.
  rewrite (total_n_sys_upd s _ _ _ (handle_arrival_queues cfg ev s)).
  rewrite length_app, Nat2Z.inj_add. cbn [length]. lia.
Qed.

Lemma step_census_ok (s : State G) ev s' :
  source_ok s -> census_ok s -> step cfg s = Processed ev s' -> census_ok s'.
Proof.
  intros (e & Ha & Hqe & Hid) [Htot Hzero] Hstep.
  pose proof (step_counts cfg s ev s' Hstep) as [_ Hcounts].
  split.
  2:{ destruct Hcounts as [(Hw & _ & Hc)
                          | [(_ & Hw & _ & [(_ & _ & Hc)|(Hw' & _ & _)])
                            | (_ & _ & Hw' & _ & _)]].
      - rewrite Hw, Hc. assumption.
      - rewrite Hc. auto.
      - congruence.
      - congruence. }
  apply step_inv in Hstep.
  destruct Hstep as (rest & Hev & _ & Hcase). cbv zeta in Hcase.
  assert (H0 : Report.total_n_sys (set_clock (time ev)
                 (update_accumulators (set_events rest s)))
               = Report.total_n_sys s).
  { apply total_n_sys_same. simpl. rewrite update_accumulators_queues.
    reflexivity. }
  unfold exits in *.
  destruct Hcase as [(Ht & _ & _ & ->) | [(Ht & Hno & ->) | (Ht & Hd)]].
  - rewrite (total_n_sys_same _ _ (next_external_queues cfg _)).
    rewrite handle_arrival_total, H0.
    rewrite next_external_cust_counter, handle_arrival_cust_counter. simpl.
    rewrite update_accumulators_cust_counter. simpl.
    destruct Hcounts as [(_ & Hw & Hc) | [(Hd & _) | (Hd & _)]];
      [rewrite Hw, Hc; lia | congruence | congruence].
  - exfalso. rewrite Hev in Ha. unfold arrs in Ha. simpl in Ha.
    unfold is_arrival in Ha at 1. rewrite Ht in Ha.
    inversion Ha; subst e. tauto.
  - apply handle_departure_inv in Hd.
    destruct Hd as (c & l & r & g & Hq & Hr & Hcase). cbv zeta in Hcase.
    match type of Hcase with
    | context [handle_exit cfg c ?st] =>
        assert (H1 : Report.total_n_sys st = (Report.total_n_sys s - 1)%Z)
    end.
    { match goal with
      | |- Report.total_n_sys ?st = _ =>
          rewrite (total_n_sys_upd
                     (set_clock (time ev)
                        (update_accumulators (set_events rest s)))
                     st (queue_id ev) l eq_refl)
      end.
      rewrite Hq, H0. cbn [length]. rewrite Nat2Z.inj_succ. lia. }
    destruct Hcase as [(Hrt & ->) | (next_q & Hrt & ->)].
    + rewrite (total_n_sys_same _ _ (start_next_queues cfg _ _)).
      rewrite (total_n_sys_same _ _ (handle_exit_queues cfg _ _)), H1.
      rewrite start_next_cust_counter, handle_exit_cust_counter. simpl.
      rewrite update_accumulators_cust_counter. simpl.
      rewrite start_next_warmup_count, start_next_completed_count.
      match goal with
      | |- context [handle_exit cfg c ?st] =>
          pose proof (handle_exit_counts cfg c st) as Hx
      end.
      simpl in Hx. rewrite update_accumulators_is_warming_up,
        update_accumulators_warmup_count,
        update_accumulators_completed_count in Hx. simpl in Hx.
      destruct Hx as [(Hw & -> & [(_ & _ & ->)|(_ & _ & ->)])
                     | (_ & _ & -> & ->)]; try lia.
      specialize (Hzero Hw). lia.
    + rewrite (total_n_sys_same _ _ (start_next_queues cfg _ _)).
      rewrite handle_arrival_total, H1.
      rewrite start_next_cust_counter, handle_arrival_cust_counter. simpl.
      rewrite update_accumulators_cust_counter. simpl.
      rewrite start_next_warmup_count, start_next_completed_count,
        handle_arrival_warmup_count, handle_arrival_completed_count. simpl.
      rewrite update_accumulators_warmup_count,
        update_accumulators_completed_count. simpl. lia.
Qed.

Lemma reachable_census_ok (s : State G) : reachable cfg s -> census_ok s.
Proof.
  induction 1 as [g|s ev s' Hs IH Hstep].
  - unfold reset. destruct (expovariate _ _). split; reflexivity.
  - eapply step_census_ok; try eassumption.
    apply (reachable_source_ok cfg). assumption.
Qed.

End Census.

(** X6: in every reachable state the customers in the four queues are
    those that entered and have not left: their number is
    [cust_counter - 1 - warmup_count - completed_count]. *)
Theorem network_census {G : Type} {RS : RandomSource G} (cfg : Config)
    (s : State G) :
  reachable cfg s ->
  Report.total_n_sys s
  = (cust_counter s - 1 - warmup_count s - completed_count s)%Z.
Proof.
  intros Hs. destruct (reachable_census_ok cfg s Hs) as [H _].
  unfold exits in H. lia.
Qed.

Lemma network_census_witness :
  Report.total_n_sys (trace_state 9)
  = (cust_counter (trace_state 9) - 1 - warmup_count (trace_state 9)
     - completed_count (trace_state 9))%Z.
Proof.
  apply (network_census (RS := trace_source) trace_config (trace_state 9)).
  apply trace_state_reachable.
Defined.

(** ** The time integrals *)

Section Integrals.

Context {G : Type} {RS : RandomSource G}.
Variable cfg : Config.

(** A step taken during the warm-up leaves every time integral at zero,
    whether it ends the warm-up or not. *)
Lemma step_warm_integrals_zero (s : State G) ev s' :
  reachable cfg s -> is_warming_up s = true ->
  step cfg s = Processed ev s' -> integrals_zero s'.
Proof.
  intros Hs Hw Hstep.
  destruct (is_warming_up s') eqn:Hw'.
  - assert (Hs' : reachable cfg s') by (eapply reach_step; eassumption).
    apply (reachable_warmup_ok cfg s' Hs'). assumption.
  - destruct (step_flip cfg s ev s' Hw Hstep Hw') as [Hz _].
    intros q. rewrite Hz. reflexivity.
Qed.

End Integrals.

Section IntegralsGrow.

Context {G : Type} {RS : RandomSource G}.
Variable cfg : Config.
Hypothesis draws_nonneg : forall rate (g : G), 0 <= fst (expovariate rate g).

(** The step that ends the warm-up sets [last_update] to the clock. *)
Lemma step_flip_last_update (s : State G) ev s' :
  is_warming_up s = true -> step cfg s = Processed ev s' ->
  is_warming_up s' = false -> last_update s' = clock s'.
Proof.
  intros Hw Hstep Hw'. pose proof (step_clock cfg s ev s' Hstep) as Hclock.
  rewrite Hclock. apply step_inv in Hstep.
  destruct Hstep as (rest & Hev & _ & Hcase). cbv zeta in Hcase.
  destruct Hcase as [(Ht & _ & _ & ->) | [(Ht & _ & ->) | (Ht & Hd)]].
  - rewrite next_external_is_warming_up, handle_arrival_is_warming_up in Hw'.
    simpl in Hw'. rewrite update_accumulators_is_warming_up in Hw'.
    simpl in Hw'. congruence.
  - rewrite handle_arrival_is_warming_up in Hw'.
    simpl in Hw'. rewrite update_accumulators_is_warming_up in Hw'.
    simpl in Hw'. congruence.
  - apply handle_departure_inv in Hd.
    destruct Hd as (c & l & r & g & Hq & Hr & Hcase). cbv zeta in Hcase.
    assert (Hn : forall q0 (st : State G),
               last_update (start_next cfg q0 st) = last_update st).
    { intros q0 st. unfold start_next. destruct (get (queues st) q0);
        [reflexivity|]. cbn. destruct (expovariate _ _). reflexivity. }
    destruct Hcase as [(Hrt & ->) | (next_q & Hrt & ->)];
      rewrite start_next_is_warming_up in Hw'.
    + rewrite Hn. revert Hw'. unfold handle_exit.
      cbn [is_warming_up set_rng set_stats set_queues set_clock].
      rewrite update_accumulators_is_warming_up.
      cbn [is_warming_up set_events]. rewrite Hw.
      cbn [warmup_count set_warmup_count].
      destruct (_ <=? _)%Z; [intros _; reflexivity|].
      simpl. rewrite update_accumulators_is_warming_up. simpl. congruence.
    + rewrite handle_arrival_is_warming_up in Hw'. simpl in Hw'.
      rewrite update_accumulators_is_warming_up in Hw'. simpl in Hw'.
      congruence.
Qed.

Lemma gain_nonneg (x d : Q) (n : Z) :
  0 <= x -> 0 <= d -> (0 <= n)%Z -> x <= x + inject_Z n * d.
Proof.
  intros Hx Hd Hn. apply Qle_plus_nonneg.
  apply Qmult_le_0_compat; [|assumption].
  change 0 with (inject_Z 0). rewrite <- Zle_Qle. assumption.
Qed.

(** After the warm-up no step makes a time integral smaller. *)
Lemma step_integrals_grow (s : State G) ev s' q :
  integrals_ok s -> is_warming_up s = false ->
  step cfg s = Processed ev s' ->
  L_accum (get (stats s) q) <= L_accum (get (stats s') q) /\
  Q_accum (get (stats s) q) <= Q_accum (get (stats s') q) /\
  Busy_accum (get (stats s) q) <= Busy_accum (get (stats s') q).
Proof.
  intros [Hlu Hpos] Hw Hstep.
  destruct (step_gain cfg s ev s' q Hw Hstep) as (HL & HQ & HB).
  rewrite HL, HQ, HB. destruct (Hpos q) as (H1 & H2 & H3).
  assert (Hd : 0 <= clock s - last_update s) by lra.
  split; [|split].
  - apply gain_nonneg; auto. lia.
  - apply gain_nonneg; auto. destruct (get (server_busy s) q); lia.
  - destruct (get (server_busy s) q); [|apply Qle_refl].
    apply Qle_plus_nonneg. assumption.
Qed.

Lemma reachable_integrals_ok (s : State G) :
  reachable cfg s -> integrals_ok s.
Proof.
  induction 1 as [g|s ev s' Hs IH Hstep].
  - unfold reset. destruct (expovariate _ _) as [t g']. split; simpl.
    + apply Qle_refl.
    + intros q. destruct q; simpl; (split; [|split]); apply Qle_refl.
  - split.
    + assert (Hle : clock s <= time ev).
      { pose proof Hstep as Hinv. apply step_inv in Hinv.
        destruct Hinv as (rest & Hev & _).
        apply (pop_fel_ok s ev rest Hev (reachable_fel_ok cfg draws_nonneg s Hs)). }
      pose proof (step_clock cfg s ev s' Hstep) as Heq.
      destruct (is_warming_up s) eqn:Hw, (is_warming_up s') eqn:Hw'.
      * rewrite (step_last_update cfg s ev s' Hstep) by congruence.
        rewrite Heq. assumption.
      * rewrite (step_flip_last_update s ev s' Hw Hstep Hw').
        apply Qle_refl.
      * rewrite (step_stays_false cfg s ev s' Hw Hstep) in Hw'.
        discriminate.
      * rewrite (step_last_update cfg s ev s' Hstep) by congruence.
        rewrite Heq. assumption.
    + intros q. destruct (is_warming_up s) eqn:Hw.
      * pose proof (step_warm_integrals_zero cfg s ev s' Hs Hw Hstep q) as Hz.
        unfold integrals in Hz. injection Hz as HL HQ HB.
        rewrite HL, HQ, HB. split; [|split]; apply Qle_refl.
      * destruct (step_integrals_grow s ev s' q IH Hw Hstep) as (H1 & H2 & H3).
        destruct IH as [_ Hpos]. destruct (Hpos q) as (P1 & P2 & P3).
        split; [exact (Qle_trans _ _ _ P1 H1)|].
        split; [exact (Qle_trans _ _ _ P2 H2)|exact (Qle_trans _ _ _ P3 H3)].
Qed.

Lemma reachable_within_ok (s : State G) :
  reachable cfg s -> within_ok s.
Proof.
  induction 1 as [g|s ev s' Hs IH Hstep].
  - unfold reset. destruct (expovariate _ _) as [t g']. intros q.
    destruct q; simpl; split; apply Qle_refl.
  - intros q. destruct (is_warming_up s) eqn:Hw.
    + pose proof (step_warm_integrals_zero cfg s ev s' Hs Hw Hstep q) as Hz.
      unfold integrals in Hz. injection Hz as HL HQ HB.
      rewrite HL, HQ, HB. split; apply Qle_refl.
    + destruct (step_gain cfg s ev s' q Hw Hstep) as (HL & HQ & HB).
      rewrite HL, HQ, HB. destruct (IH q) as [IQ IB].
      destruct (reachable_integrals_ok s Hs) as [Hlu _].
      assert (Hd : 0 <= clock s - last_update s) by lra.
      pose proof (reachable_station_ok cfg s Hs q) as Hok.
      unfold station_ok in Hok.
      destruct (get (server_busy s) q).
      * destruct Hok as (c & rest & e & Hq & _). rewrite Hq.
        cbn [length]. rewrite Nat2Z.inj_succ. split.
        -- apply Qplus_le_compat; [assumption|].
           apply Qmult_le_compat_r; [|assumption].
           rewrite <- Zle_Qle. lia.
        -- apply Qplus_le_compat; [assumption|].
           rewrite <- (Qmult_1_l (clock s - last_update s)) at 1.
           apply Qmult_le_compat_r; [|assumption].
           change 1 with (inject_Z 1). rewrite <- Zle_Qle. lia.
      * split.
        -- apply Qplus_le_compat; [assumption|].
           apply Qmult_le_compat_r; [|assumption].
           rewrite <- Zle_Qle. lia.
        -- eapply Qle_trans; [exact IB|].
           apply Qle_plus_nonneg. apply Qmult_le_0_compat; [|assumption].
           change 0 with (inject_Z 0). rewrite <- Zle_Qle. lia.
Qed.

End IntegralsGrow.

(** X7: when every interarrival and service draw is non-negative, in every
    reachable state and at every station the integral of the number waiting
    and the busy time are each at most the integral of the number in the
    system: [Q_accum <= L_accum] and [Busy_accum <= L_accum]. *)
Theorem queue_and_service_within_system {G : Type} {RS : RandomSource G}
    (cfg : Config) (s : State G) :
  (forall rate (g : G), 0 <= fst (expovariate rate g)) ->
  reachable cfg s ->
  forall q, Q_accum (get (stats s) q) <= L_accum (get (stats s) q) /\
            Busy_accum (get (stats s) q) <= L_accum (get (stats s) q).
Proof.
  intros Hdraw Hs. apply (reachable_within_ok cfg Hdraw s Hs).
Qed.

Lemma queue_and_service_within_system_witness :
  Q_accum (get (stats (trace_state 20)) St2)
  <= L_accum (get (stats (trace_state 20)) St2)
  /\ Busy_accum (get (stats (trace_state 20)) St2)
     <= L_accum (get (stats (trace_state 20)) St2).
Proof.
  apply (queue_and_service_within_system trace_config (trace_state 20)
           trace_draws_nonneg (trace_state_reachable 20)).
Defined.

(** X8: when every interarrival and service draw is non-negative, in every
    reachable state [last_update] is not after the clock and no time integral
    is negative; and a step taken after the warm-up makes none of the three
    integrals of a station smaller. *)
Theorem integrals_nonneg_and_grow {G : Type} {RS : RandomSource G}
    (cfg : Config) (s : State G) :
  (forall rate (g : G), 0 <= fst (expovariate rate g)) ->
  reachable cfg s ->
  last_update s <= clock s
  /\ (forall q, 0 <= L_accum (get (stats s) q) /\
                0 <= Q_accum (get (stats s) q) /\
                0 <= Busy_accum (get (stats s) q))
  /\ (forall ev s' q,
        is_warming_up s = false -> step cfg s = Processed ev s' ->
        L_accum (get (stats s) q) <= L_accum (get (stats s') q) /\
        Q_accum (get (stats s) q) <= Q_accum (get (stats s') q) /\
        Busy_accum (get (stats s) q) <= Busy_accum (get (stats s') q)).
Proof.
  intros Hdraw Hs.
  pose proof (reachable_integrals_ok cfg Hdraw s Hs) as Hok.
  destruct Hok as [Hlu Hpos]. split; [assumption|]. split; [assumption|].
  intros ev s' q Hw Hstep.
  apply (step_integrals_grow cfg s ev s' q (conj Hlu Hpos) Hw Hstep).
Qed.

Lemma integrals_nonneg_and_grow_witness :
  last_update (trace_state 8) <= clock (trace_state 8)
  /\ 0 <= Busy_accum (get (stats (trace_state 8)) St2)
  /\ L_accum (get (stats (trace_state 8)) St1)
     <= L_accum (get (stats (trace_state 9)) St1).
Proof.
  destruct (integrals_nonneg_and_grow trace_config (trace_state 8)
              trace_draws_nonneg (trace_state_reachable 8))
    as (Hlu & Hpos & Hgrow).
  split; [exact Hlu|]. split; [apply (Hpos St2)|].
  apply (Hgrow (nth 0 (events (trace_state 8))
                  (mkEvent 0 ARRIVAL (mkCustomer 0 0) St1))
           (trace_state 9) St1).
  - vm_compute. reflexivity.
  - vm_compute. reflexivity.
Defined.

(** ** How customers move *)

Section Moves.

Context {G : Type} {RS : RandomSource G}.
Variable cfg : Config.

Lemma route_exit q r : route cfg q r = None -> q = St4.
Proof.
  destruct q; simpl; try discriminate; try reflexivity.
  destruct (Qlt_bool _ _); discriminate.
Qed.

Lemma route_not_first q r nq : route cfg q r = Some nq -> nq <> St1.
Proof.
  destruct q; simpl; intros H;
    repeat match type of H with
           | context [if ?b then _ else _] => destruct b
           end; inversion H; discriminate.
Qed.

End Moves.

(** X9: a [DEPARTURE] processed from a reachable state is that of the
    customer at the head of its station's queue, and the station keeps the rest
    of its queue in order.  Either the station is station 4 and the customer
    leaves the network, every other queue staying as it was; or the customer is
    appended, within the same step, to the queue of another station, which is
    never station 1, and the remaining queues stay as they were. *)
Theorem departure_moves_head {G : Type} {RS : RandomSource G} (cfg : Config)
    (s : State G) ev s' :
  reachable cfg s -> step cfg s = Processed ev s' -> type ev = DEPARTURE ->
  exists rest,
    get (queues s) (queue_id ev) = customer ev :: rest /\
    get (queues s') (queue_id ev) = rest /\
    ((queue_id ev = St4 /\
      forall q, q <> queue_id ev -> get (queues s') q = get (queues s) q)
     \/ exists next_q,
          next_q <> queue_id ev /\ next_q <> St1 /\
          get (queues s') next_q = get (queues s) next_q ++ [customer ev] /\
          forall q, q <> queue_id ev -> q <> next_q ->
                    get (queues s') q = get (queues s) q).
Proof.
  intros Hs Hstep Ht.
  pose proof (reachable_station_ok cfg s Hs (queue_id ev)) as Hok.
  apply step_inv in Hstep.
  destruct Hstep as (rest & Hev & _ & Hcase). cbv zeta in Hcase.
  destruct Hcase as [(Ht' & _) | [(Ht' & _) | (_ & Hd)]]; try congruence.
  unfold station_ok in Hok. rewrite Hev, deps_cons_own in Hok by assumption.
  destruct (get (server_busy s) (queue_id ev));
    [|destruct Hok as [_ Hok]; discriminate].
  destruct Hok as (c & l & e & Hq & He & Hc).
  injection He as He _. subst e. subst c.
  apply handle_departure_inv in Hd.
  destruct Hd as (c & l' & r & g & Hq' & Hr & Hcase). cbv zeta in Hcase.
  simpl in Hq'. rewrite update_accumulators_queues in Hq'. simpl in Hq'.
  rewrite Hq in Hq'. injection Hq' as Hc Hl. subst c l'.
  exists l. split; [assumption|].
  destruct Hcase as [(Hrt & ->) | (next_q & Hrt & ->)];
    rewrite start_next_queues.
  - rewrite handle_exit_queues. simpl. rewrite update_accumulators_queues.
    simpl. split; [apply get_upd_same|].
    left. split; [eapply route_exit; eassumption|].
    intros q Hne. apply get_upd_other. assumption.
  - pose proof (route_other cfg _ _ _ Hrt) as Hne.
    pose proof (route_not_first cfg _ _ _ Hrt) as Hn1.
    rewrite handle_arrival_queues. simpl. rewrite update_accumulators_queues.
    simpl. split.
    + rewrite get_upd_other by congruence. apply get_upd_same.
    + right. exists next_q. split; [assumption|]. split; [assumption|].
      split.
      * rewrite get_upd_same. rewrite get_upd_other by assumption.
        reflexivity.
      * intros q Hq1 Hq2. rewrite !get_upd_other by assumption. reflexivity.
Qed.

Lemma departure_moves_head_witness :
  exists rest,
    get (queues (trace_state 3)) St2 = mkCustomer 1 0 :: rest /\
    get (queues (trace_state 4)) St2 = rest /\
    ((St2 = St4 /\
      forall q, q <> St2 ->
                get (queues (trace_state 4)) q = get (queues (trace_state 3)) q)
     \/ exists next_q,
          next_q <> St2 /\ next_q <> St1 /\
          get (queues (trace_state 4)) next_q
          = get (queues (trace_state 3)) next_q ++ [mkCustomer 1 0] /\
          forall q, q <> St2 -> q <> next_q ->
                    get (queues (trace_state 4)) q
                    = get (queues (trace_state 3)) q).
Proof.
  apply (departure_moves_head trace_config (trace_state 3)
           (mkEvent (8 # 4) DEPARTURE (mkCustomer 1 0) St2) (trace_state 4)
           (trace_state_reachable 3)).
  - vm_compute. reflexivity.
  - reflexivity.
Defined.

(** X10: an [ARRIVAL] processed from a reachable state is an external one:
    it is at station 1, its customer carries the number [cust_counter], the
    customer joins the end of the queue of station 1 and the counter goes up
    by one; a [DEPARTURE] leaves the counter alone.  So the customers enter in
    the order of their numbers 1, 2, 3, ... *)
Theorem arrivals_are_numbered {G : Type} {RS : RandomSource G} (cfg : Config)
    (s : State G) ev s' :
  reachable cfg s -> step cfg s = Processed ev s' ->
  (type ev = ARRIVAL ->
   queue_id ev = St1 /\ id (customer ev) = cust_counter s /\
   cust_counter s' = (cust_counter s + 1)%Z /\
   get (queues s') St1 = get (queues s) St1 ++ [customer ev])
  /\ (type ev = DEPARTURE -> cust_counter s' = cust_counter s).
Proof.
  intros Hs Hstep.
  destruct (reachable_source_ok cfg s Hs) as (e & Ha & Hq & Hid).
  apply step_inv in Hstep.
  destruct Hstep as (rest & Hev & _ & Hcase). cbv zeta in Hcase.
  rewrite Hev in Ha. unfold arrs in Ha. simpl in Ha.
  destruct Hcase as [(Ht & Hq1 & Hid1 & ->) | [(Ht & Hno & ->) | (Ht & Hd)]].
  - split; [intros _|congruence].
    split; [assumption|]. split; [assumption|]. split.
    + rewrite next_external_cust_counter, handle_arrival_cust_counter. simpl.
      rewrite update_accumulators_cust_counter. reflexivity.
    + rewrite next_external_queues, handle_arrival_queues. simpl.
      rewrite update_accumulators_queues. simpl. rewrite Hq1.
      reflexivity.
  - exfalso. unfold is_arrival in Ha at 1. rewrite Ht in Ha.
    inversion Ha; subst e. tauto.
  - split; [congruence|intros _].
    apply handle_departure_arrs in Hd.
    + destruct Hd as [_ Hc]. simpl in Hc.
      rewrite update_accumulators_cust_counter in Hc. exact Hc.
    + simpl. rewrite update_accumulators_events. simpl.
      unfold is_arrival in Ha at 1. rewrite Ht in Ha.
      unfold arrs. rewrite Ha. simpl. lia.
Qed.

Lemma arrivals_are_numbered_witness :
  St1 = St1 /\ 3%Z = cust_counter (trace_state 6) /\
  cust_counter (trace_state 7) = (cust_counter (trace_state 6) + 1)%Z /\
  get (queues (trace_state 7)) St1
  = get (queues (trace_state 6)) St1 ++ [mkCustomer 3 2].
Proof.
  assert (Hstep : step (RS := trace_source) trace_config (trace_state 6)
                  = Processed (mkEvent 3 ARRIVAL (mkCustomer 3 2) St1)
                      (trace_state 7))
    by (vm_compute; reflexivity).
  apply (proj1 (arrivals_are_numbered trace_config (trace_state 6)
                  (mkEvent 3 ARRIVAL (mkCustomer 3 2) St1) (trace_state 7)
                  (trace_state_reachable 6) Hstep)).
  reflexivity.
Defined.

(** ** The end of a run *)

Lemma run_length {G : Type} {RS : RandomSource G} (cfg : Config) n :
  forall s : State G,
    (length (fst (run cfg n s)) <= n)%nat /\
    ((length (fst (run cfg n s)) < n)%nat ->
     forall ev s', step cfg (snd (run cfg n s)) <> Processed ev s').
Proof.
  induction n as [|n IH]; intros s; simpl.
  - split; [lia|intros H; lia].
  - destruct (step cfg s) as [|ev s'|] eqn:Hstep; simpl.
    + split; [lia|]. intros _ ev s'. congruence.
    + specialize (IH s'). destruct (run cfg n s') as [tr s'']. simpl in *.
      destruct IH as [H1 H2]. split; [lia|]. intros H. apply H2. lia.
    + split; [lia|]. intros _ ev s'. congruence.
Qed.

(** In a reachable state [step] reports the end only at the target. *)
Lemma finished_at_target {G : Type} {RS : RandomSource G} (cfg : Config)
    (s : State G) :
  reachable cfg s -> step cfg s = Finished ->
  (MAX_COMPLETED cfg <= completed_count s)%Z.
Proof.
  intros Hs. destruct (reachable_source_ok cfg s Hs) as (e & Ha & _).
  unfold step. destruct (events s) as [|ev rest]; [discriminate Ha|].
  destruct (MAX_COMPLETED cfg <=? completed_count s)%Z eqn:Hm.
  - intros _. apply Z.leb_le. assumption.
  - destruct (type ev).
    + destruct (_ && _); discriminate.
    + destruct (handle_departure _ _ _); discriminate.
Qed.

(** X11: the loop of [run_instant] and [finish_and_compare], started in a
    reachable state with a target that is not negative: if it stops before its
    fuel is used up, [step] has reported the end; and whenever [step] reports
    the end of the run, [completed_count] is exactly [MAX_COMPLETED]. *)
Theorem run_ends_at_target {G : Type} {RS : RandomSource G} (cfg : Config)
    (s : State G) (n : nat) :
  reachable cfg s -> (0 <= MAX_COMPLETED cfg)%Z ->
  ((length (fst (run cfg n s)) < n)%nat ->
   step cfg (snd (run cfg n s)) = Finished)
  /\ (step cfg (snd (run cfg n s)) = Finished ->
      completed_count (snd (run cfg n s)) = MAX_COMPLETED cfg).
Proof.
  intros Hs Hmax.
  pose proof (run_reachable cfg n s Hs) as Hr.
  pose proof (finished_at_target cfg _ Hr) as Hfin.
  pose proof (step_no_raise cfg _ (reachable_station_ok cfg _ Hr)) as Hraise.
  pose proof (reachable_completed_bounds cfg _ Hr) as Hb.
  split.
  - intros Hlt. destruct (run_length cfg n s) as [_ Hstop].
    specialize (Hstop Hlt).
    destruct (step cfg (snd (run cfg n s))) as [|ev s'|];
      [reflexivity | exfalso; eapply Hstop; reflexivity | congruence].
  - intros Hf. specialize (Hfin Hf). lia.
Qed.

Lemma run_ends_at_target_witness :
  step (RS := trace_source) trace_config (snd (trace_run 40)) = Finished
  /\ completed_count (snd (trace_run 40)) = MAX_COMPLETED trace_config.
Proof.
  assert (Hr : reachable (RS := trace_source) trace_config trace_init)
    by (unfold trace_init; apply reach_reset).
  assert (Hm : (0 <= MAX_COMPLETED trace_config)%Z)
    by (vm_compute; discriminate).
  destruct (run_ends_at_target (RS := trace_source) trace_config trace_init 40
              Hr Hm) as [Hstop Hcount].
  unfold trace_run.
  assert (Hlt : (length (fst (run (RS := trace_source) trace_config 40
                                trace_init)) < 40)%nat)
    by (vm_compute; lia).
  split; [exact (Hstop Hlt)|exact (Hcount (Hstop Hlt))].
Defined.

(** ** The figures of the reports *)

Section Reports.

Import Analytical.
Import Report.

Lemma valid_duration_pos {G : Type} (s : State G) : 0 < valid_duration s.
Proof.
  unfold valid_duration. cbv zeta.
  destruct (Qle_bool (clock s - steady_start_time s)
              (1152921504606847 # 1152921504606846976)) eqn:E.
  - reflexivity.
  - assert (H : 1152921504606847 # 1152921504606846976
                < clock s - steady_start_time s).
    { apply Qnot_le_lt. intros H. apply Qle_bool_iff in H. congruence. }
    eapply Qlt_trans; [|exact H]. reflexivity.
Qed.

Lemma pos_neq_0 (x : Q) : 0 < x -> ~ x == 0.
Proof. intros H E. rewrite E in H. discriminate H. Qed.

Lemma throughput_pos (d : Z) (vd : Q) :
  0 < vd -> (Qlt_bool 0 (inject_Z d / vd) = true <-> (0 < d)%Z).
Proof.
  intros Hvd. rewrite Qlt_bool_iff. split.
  - intros H. apply Z.lt_nge. intros Hd.
    assert (Hle : inject_Z d / vd <= 0).
    { apply Qle_shift_div_r; [assumption|]. rewrite Qmult_0_l.
      change 0 with (inject_Z 0). rewrite <- Zle_Qle. assumption. }
    exact (Qlt_not_le _ _ H Hle).
  - intros Hd. apply Qlt_shift_div_l; [assumption|]. rewrite Qmult_0_l.
    change 0 with (inject_Z 0). rewrite <- Zlt_Qlt. assumption.
Qed.

(** X12: the simulation figures of the reports are defined in every state
    of the engine, whatever its clock and counters: [valid_duration] is
    positive, no division fails, neither for a station nor for [sim_R], and a
    station without a counted departure gets the waiting times [W = Wq = 0]. *)
Theorem simulation_defined {G : Type} (s : State G) :
  0 < valid_duration s
  /\ (exists r, simulation s = Some r)
  /\ (forall i, exists m,
        sim_station s i = Some m /\
        ((Departures (get (stats s) i) <= 0)%Z -> W m = 0 /\ Wq m = 0)).
Proof.
  pose proof (valid_duration_pos s) as Hvd.
  pose proof (pos_neq_0 _ Hvd) as Hne.
  assert (Hst : forall i, exists m,
             sim_station s i = Some m /\
             ((Departures (get (stats s) i) <= 0)%Z -> W m = 0 /\ Wq m = 0)).
  { intros i. unfold sim_station. cbv zeta. unfold bind.
    rewrite !(div_some _ _ Hne).
    destruct (Qlt_bool 0 (inject_Z (Departures (get (stats s) i))
                          / valid_duration s)) eqn:E.
    - assert (Hthru : ~ inject_Z (Departures (get (stats s) i))
                        / valid_duration s == 0).
      { apply pos_neq_0. apply Qlt_bool_iff. assumption. }
      rewrite !(div_some _ _ Hthru). eexists. split; [reflexivity|].
      intros Hd. apply (throughput_pos _ _ Hvd) in E. lia.
    - eexists. split; [reflexivity|]. intros _. split; reflexivity. }
  split; [assumption|]. split; [|assumption].
  unfold simulation, bind.
  destruct (Hst St1) as (m1 & -> & _). destruct (Hst St2) as (m2 & -> & _).
  destruct (Hst St3) as (m3 & -> & _). destruct (Hst St4) as (m4 & -> & _).
  unfold sim_R. rewrite div_some; [eexists; reflexivity|].
  apply pos_neq_0. change 0 with (inject_Z 0). rewrite <- Zlt_Qlt. lia.
Qed.

(** X14: a line of the comparison table whose analytical value is zero or
    negative shows the error 0 and the status PASS, whatever the simulated
    value is. *)
Theorem add_row_nonpositive (ana sim : Q) :
  ana <= 0 -> add_row ana sim = Some (0, PASS).
Proof.
  intros Ha. unfold add_row, bind.
  replace (Qlt_bool 0 ana) with false; [reflexivity|].
  symmetry. apply Qlt_bool_false. assumption.
Qed.

Lemma add_row_nonpositive_witness :
  add_row (- (6)) 3 = Some (0, PASS).
Proof. apply add_row_nonpositive. discriminate. Defined.

(** X15: [add_row] writes a line whatever the two values are: no division
    fails, the error is never negative, the status is PASS exactly when the
    error it computed is below 10, and a simulated value equal to the
    analytical one gets the error 0 and the status PASS. *)
Theorem add_row_total (ana sim : Q) :
  exists err st,
    add_row ana sim = Some (err, st) /\
    0 <= err /\
    (st = PASS <-> err < 10) /\
    (sim == ana -> err == 0 /\ st = PASS).
Proof.
  unfold add_row, bind.
  assert (Hst : forall err,
             ((if Qlt_bool err 10 then PASS else HIGH_DEV) = PASS <-> err < 10)).
  { intros err. destruct (Qlt_bool err 10) eqn:E.
    - apply Qlt_bool_iff in E. tauto.
    - apply Qlt_bool_false in E. split; [discriminate|].
      intros H. exfalso. exact (Qlt_not_le _ _ H E). }
  destruct (Qlt_bool 0 ana) eqn:Ea.
  - apply Qlt_bool_iff in Ea. pose proof (pos_neq_0 _ Ea) as Hne.
    rewrite (div_some _ _ Hne).
    eexists. eexists. split; [reflexivity|].
    assert (Hpos : 0 <= Qabs (sim - ana) / ana * 100).
    { apply Qmult_le_0_compat; [|discriminate].
      apply Qle_shift_div_l; [assumption|]. rewrite Qmult_0_l.
      apply Qabs_nonneg. }
    split; [exact Hpos|]. split; [apply Hst|].
    intros Heq.
    assert (Hz : Qabs (sim - ana) / ana * 100 == 0).
    { assert (H0 : sim - ana == 0) by (rewrite Heq; ring).
      rewrite H0. simpl Qabs. field. assumption. }
    split; [exact Hz|]. apply Hst. rewrite Hz. reflexivity.
  - eexists. eexists. split; [reflexivity|].
    split; [apply Qle_refl|]. split; [apply Hst|].
    intros _. split; reflexivity.
Qed.

(** X17: at a stable station, arrival rate [0 < l] below the service rate
    [m], the analytical part returns its figures, and they have the signs of
    a queue: the utilization lies strictly between 0 and 1, [L] and [W] are
    positive and [Lq] and [Wq] are not negative. *)
Theorem stable_station_signs (l m : Q) :
  0 < l -> l < m ->
  exists r,
    station_metrics l m = Some r /\
    0 < Rho r /\ Rho r < 1 /\
    0 < L r /\ 0 < W r /\
    0 <= Lq r /\ 0 <= Wq r.
Proof.
  intros Hl Hlm.
  assert (Hm : 0 < m) by lra.
  pose proof (pos_neq_0 _ Hm) as Hne.
  assert (Hrho0 : 0 < l / m).
  { apply Qlt_shift_div_l; [assumption|]. lra. }
  assert (Hrho1 : l / m < 1).
  { apply Qlt_shift_div_r; [assumption|]. lra. }
  assert (H1 : ~ 1 - l / m == 0).
  { set (rho := l / m) in *. intros E. lra. }
  assert (H2 : ~ m - l == 0) by (intros E; lra).
  unfold station_metrics, bind.
  rewrite (div_some l m Hne), (div_some _ _ H1), (div_some _ _ H2),
    (div_some 1 m Hne).
  eexists. split; [reflexivity|]. cbn [Rho L Lq W Wq].
  split; [assumption|]. split; [assumption|].
  assert (HW : 0 < 1 / (m - l)) by (apply Qlt_shift_div_l; lra).
  assert (Hinv : 1 / m <= 1 / (m - l)).
  { apply Qle_shift_div_l; [lra|].
    assert (E : 1 / m * (m - l) == 1 - l / m) by (field; assumption).
    rewrite E. lra. }
  split; [|split; [exact HW|split]].
  - set (rho := l / m) in *. apply Qlt_shift_div_l; lra.
  - set (rho := l / m) in *.
    assert (HL : rho <= rho / (1 - rho)).
    { apply Qle_shift_div_l; [lra|].
      assert (E : rho * (1 - rho) == rho - rho * rho) by ring.
      rewrite E.
      assert (Hsq : 0 <= rho * rho)
        by (apply Qmult_le_0_compat; apply Qlt_le_weak; assumption).
      lra. }
    lra.
  - lra.
Qed.

Lemma stable_station_signs_witness :
  exists r,
    station_metrics 4 5 = Some r /\
    0 < Rho r /\ Rho r < 1 /\
    0 < L r /\ 0 < W r /\
    0 <= Lq r /\ 0 <= Wq r.
Proof.
  apply (stable_station_signs 4 5); reflexivity.
Defined.

End Reports.
